(** * door_postcards: placement of postcards on a door

    A shallow embedding of [coordinates.py]: the rectangle geometry
    ([Rectangle.overlap], [Rectangle.overflow]), the [Postcard] constructor
    with its random draw, the acceptance test [test_new], the record file
    ([parse_busy], [write_busy]) and the driver [main].

    Python integers are unbounded, so coordinates are [Z].  Text is
    [String.string]; every character the program itself writes is ASCII.
    The random generator and the file [busy.csv] are the only state; both
    live in [World] and are threaded through a small state-and-exception
    monad [M].

    Left out: logging, which changes no result, and the rendering of the
    coordinates ([Rectangle.get_str_coordinates] and the unit tables),
    which computes with floats.  Of [Rectangle.get_polar] the exceptions
    and their order are computed; the two floats it returns are kept as
    the operations that yield them.  Conversions between [int] and text
    are taken without the interpreter's limit on the number of digits. *)

From Stdlib Require Import ZArith List Bool Lia.
From Stdlib Require Import Ascii String DecimalString DecimalZ DecimalPos.
From Stdlib Require Import Permutation.
Import ListNotations.

#[local] Open Scope string_scope.
#[local] Open Scope Z_scope.

(* ================================================================== *)
(** ** Data model *)

(** [class Orientation(Enum)] *)
Inductive Orientation : Type :=
| UNDEFINED
| LANDSCAPE
| PORTRAIT.

(** [Orientation.<member>.name] *)
Definition Orientation_name (o : Orientation) : string :=
  match o with
  | UNDEFINED => "UNDEFINED"
  | LANDSCAPE => "LANDSCAPE"
  | PORTRAIT => "PORTRAIT"
  end.

(** [class Rectangle]: the four attributes set by [__init__]. *)
Record Rectangle : Type := mkRectangle {
  xxx : Z;
  zzz : Z;
  width : Z;
  height : Z
}.

(** [class Postcard(Rectangle)]: the inherited attributes plus
    [orientation]. *)
Record Postcard : Type := mkPostcard {
  base :> Rectangle;
  orientation : Orientation
}.

(** The module-level constant [THE_DOOR] and the class constants
    [Postcard.WIDTH], [Postcard.HEIGHT], gathered so that the functions
    reading them can be studied under other values too. *)
Record Layout : Type := mkLayout {
  THE_DOOR : Rectangle;
  WIDTH : Z;
  HEIGHT : Z
}.

(** The values the source gives them. *)
Definition door_layout : Layout :=
  {| THE_DOOR := mkRectangle 0 0 800 2000; WIDTH := 146; HEIGHT := 106 |}.

(* ================================================================== *)
(** ** Rectangle geometry *)

(** [Rectangle.overlap] (the logging call has no effect on the result). *)
Definition overlap (self other : Rectangle) : bool :=
  let x_11 := xxx self >? xxx other in
  let x_12 := xxx self <? xxx other + width other in
  let x_21 := xxx self + width self >? xxx other in
  let x_22 := xxx self + width self <? xxx other + width other in
  let x_test := (x_11 && x_12) || (x_21 && x_22) in
  let z_11 := zzz self >? zzz other in
  let z_12 := zzz self <? zzz other + height other in
  let z_21 := zzz self + height self >? zzz other in
  let z_22 := zzz self + height self <? zzz other + height other in
  let z_test := (z_11 && z_12) || (z_21 && z_22) in
  x_test && z_test.

(** [Rectangle.overflow] *)
Definition overflow (self other : Rectangle) : bool :=
  let x_test :=
    (xxx self <? xxx other)
    || (xxx self + width self >? xxx other + width other) in
  let z_test :=
    (zzz self <? zzz other)
    || (zzz self + height self >? zzz other + height other) in
  x_test || z_test.

(** [Rectangle.get_cartesian] *)
Definition get_cartesian (self : Rectangle) : Z * Z :=
  (xxx self, zzz self).

(* ================================================================== *)
(** ** Exceptions, state and the monad *)

(** The exceptions the embedded code can raise. *)
Inductive exn : Type :=
| ValueError
| KeyError
| IndexError
| FileNotFoundError
| ZeroDivisionError
| OverflowError.

(** Result of running a piece of the program: a value, an exception, or
    a retry loop that used up the steps it was given. *)
Inductive outcome (A : Type) : Type :=
| Returns (a : A)
| Raises (e : exn)
| Spins.

Arguments Returns {A} a.
Arguments Raises {A} e.
Arguments Spins {A}.

(** The state outside the program: the raw values the generator will
    hand out ([draws], read at [cursor]) and the text of [BUSY_FILE]
    ([None] while the file does not exist). *)
Record World : Type := mkWorld {
  draws : nat -> Z;
  cursor : nat;
  busy_file : option string
}.

Definition M (A : Type) : Type := World -> outcome (A * World).

Definition ret {A} (a : A) : M A := fun w => Returns (a, w).

Definition bind {A B} (c : M A) (k : A -> M B) : M B :=
  fun w =>
    match c w with
    | Returns (a, w') => k a w'
    | Raises e => Raises e
    | Spins => Spins
    end.

Definition raise {A} (e : exn) : M A := fun _ => Raises e.

Definition spin {A} : M A := fun _ => Spins.

(** A computation without state, run inside [M]. *)
Definition lift {A} (r : outcome A) : M A :=
  fun w =>
    match r with
    | Returns a => Returns (a, w)
    | Raises e => Raises e
    | Spins => Spins
    end.

Notation "x <- c ;; k" := (bind c (fun x => k))
  (at level 61, c at next level, right associativity).

(* ------------------------------------------------------------------ *)
(** *** [random] (CPython's [random.py], the three functions the
    constructor reaches) *)

(** The world after one raw value has been consumed. *)
Definition advance (w : World) : World :=
  {| draws := draws w; cursor := S (cursor w); busy_file := busy_file w |}.

(** [Random._randbelow(n)] for [n > 0]: a value in [0, n). *)
Definition _randbelow (n : Z) : M Z :=
  fun w => Returns (draws w (cursor w) mod n, advance w).

(** [randrange(start, stop)]: [ValueError] on an empty range. *)
Definition randrange (start stop : Z) : M Z :=
  let span := stop - start in
  if 0 <? span
  then r <- _randbelow span ;; ret (start + r)
  else raise ValueError.

(** [randint(a, b)] is [randrange(a, b + 1)]. *)
Definition randint (a b : Z) : M Z := randrange a (b + 1).

(* ================================================================== *)
(** ** Polar coordinates *)

(** A [float] the program computes, kept as the operation that yields
    it.  Whether an operation raises is computed; the value it rounds to
    is not. *)
Inductive pyfloat : Type :=
| float_of_int (n : Z)
| int_over_int (a b : Z)
| sqrt (x : pyfloat)
| atan (x : pyfloat).

(** The least magnitude that rounds beyond the largest double: halfway
    between that double, [2^1024 - 2^971], and [2^1024]. *)
Definition float_overflow : Z := 2 ^ 1024 - 2 ^ 970.

(** The conversion of an [int] argument to [float] that the functions
    of [math] start with. *)
Definition as_float (n : Z) : outcome pyfloat :=
  if float_overflow <=? Z.abs n then Raises OverflowError
  else Returns (float_of_int n).

(** [math.sqrt(n)] for an [int]: the conversion first, then the
    domain. *)
Definition math_sqrt (n : Z) : outcome pyfloat :=
  match as_float n with
  | Returns f => if n <? 0 then Raises ValueError else Returns (sqrt f)
  | Raises e => Raises e
  | Spins => Spins
  end.

(** [a / b] for two [int]s: the divisor is tested first, then the size
    of the rounded quotient. *)
Definition truediv (a b : Z) : outcome pyfloat :=
  if b =? 0 then Raises ZeroDivisionError
  else if float_overflow * Z.abs b <=? Z.abs a then Raises OverflowError
  else Returns (int_over_int a b).

(** [Rectangle.get_polar]: the tuple is built left to right. *)
Definition get_polar (self : Rectangle) : outcome (pyfloat * pyfloat) :=
  match math_sqrt (xxx self ^ 2 + zzz self ^ 2) with
  | Returns r =>
      match truediv (zzz self) (xxx self) with
      | Returns quotient => Returns (r, atan quotient)
      | Raises e => Raises e
      | Spins => Spins
      end
  | Raises e => Raises e
  | Spins => Spins
  end.

(* ================================================================== *)
(** ** The postcard constructor *)

(** The [width], [height] chosen at the top of [Postcard.__init__]. *)
Definition dimensions (cfg : Layout) (orientation : option Orientation)
  : Z * Z :=
  match orientation with
  | Some LANDSCAPE => (WIDTH cfg, HEIGHT cfg)
  | Some PORTRAIT => (HEIGHT cfg, WIDTH cfg)
  | _ => (WIDTH cfg, WIDTH cfg)
  end.

Definition is_None {A} (o : option A) : bool :=
  match o with None => true | Some _ => false end.

(** [Postcard.__init__(self, xxx=None, zzz=None, orientation=None)] *)
Definition Postcard_init (cfg : Layout) (xxx zzz : option Z)
    (orientation : option Orientation) : M Postcard :=
  let '(card_width, card_height) := dimensions cfg orientation in
  xz <- match xxx, zzz with
        | Some x, Some z => ret (x, z)
        | _, _ =>
            if negb (is_None xxx) || negb (is_None zzz)
            then raise ValueError
            else
              x <- randint 0 (width (THE_DOOR cfg) - card_width) ;;
              z <- randint 0 (height (THE_DOOR cfg) - card_height) ;;
              ret (x, z)
        end ;;
  ret {| base := mkRectangle (fst xz) (snd xz) card_width card_height;
         orientation := match orientation with
                        | None => UNDEFINED
                        | Some o => o
                        end |}.

(* ================================================================== *)
(** ** Text: the [str] and [int] operations the record file uses *)

Definition LF : ascii := "010"%char.
Definition CR : ascii := "013"%char.

(** The one-character string the source writes as a line feed escape. *)
Definition newline : string := String LF EmptyString.

(** The line boundaries of [str.splitlines] below code point 256. *)
Definition is_linebreak (c : ascii) : bool :=
  existsb (Ascii.eqb c)
    [LF; CR; "011"; "012"; "028"; "029"; "030"; "133"]%char.

(** [str.splitlines()]: lines without their terminators; a terminator at
    the very end opens no further line, and [\r\n] counts once. *)
Fixpoint splitlines (s : string) : list string :=
  match s with
  | EmptyString => []
  | String c rest =>
      if Ascii.eqb c CR then
        match rest with
        | String c2 rest' =>
            if Ascii.eqb c2 LF
            then EmptyString :: splitlines rest'
            else EmptyString :: splitlines rest
        | EmptyString => EmptyString :: splitlines rest
        end
      else if is_linebreak c then EmptyString :: splitlines rest
      else
        match splitlines rest with
        | [] => [String c EmptyString]
        | line :: lines => String c line :: lines
        end
  end.

(** [str.split(sep)] for a one-character separator: never empty. *)
Fixpoint split (sep : ascii) (s : string) : list string :=
  match s with
  | EmptyString => [EmptyString]
  | String c rest =>
      if Ascii.eqb c sep then EmptyString :: split sep rest
      else
        match split sep rest with
        | [] => [String c EmptyString]
        | field :: fields => String c field :: fields
        end
  end.

(** [line.startswith(prefix)] *)
Definition startswith (line prefix : string) : bool :=
  String.prefix prefix line.

(** [sep.join(parts)] *)
Definition join (sep : string) (parts : list string) : string :=
  String.concat sep parts.

(** The text mode of [Path.read_text]: [\r\n] and a lone [\r] arrive as
    [\n]. *)
Fixpoint universal_newlines (s : string) : string :=
  match s with
  | EmptyString => EmptyString
  | String c rest =>
      if Ascii.eqb c CR then
        match rest with
        | String c2 rest' =>
            if Ascii.eqb c2 LF
            then String LF (universal_newlines rest')
            else String LF (universal_newlines rest)
        | EmptyString => String LF (universal_newlines rest)
        end
      else String c (universal_newlines rest)
  end.

(** [str(n)] for an [int], as the f-string of [as_string] formats it. *)
Definition str_of_int (n : Z) : string :=
  NilZero.string_of_int (Z.to_int n).

(** White space that [int(text)] removes at both ends (code points
    below 256): the space, the controls 9 to 13, and the two Latin-1
    spaces.  The separators 28 to 31 are not removed. *)
Definition isspace (c : ascii) : bool :=
  existsb (Ascii.eqb c)
    [" "; "009"; "010"; "011"; "012"; "013"; "133"; "160"]%char.

Fixpoint lstrip (s : string) : string :=
  match s with
  | EmptyString => EmptyString
  | String c rest => if isspace c then lstrip rest else s
  end.

Fixpoint rstrip (s : string) : string :=
  match s with
  | EmptyString => EmptyString
  | String c rest =>
      match rstrip rest with
      | EmptyString => if isspace c then EmptyString else String c EmptyString
      | kept => String c kept
      end
  end.

Definition strip (s : string) : string := rstrip (lstrip s).

Definition is_digit (c : ascii) : bool :=
  existsb (Ascii.eqb c) ["0"; "1"; "2"; "3"; "4"; "5"; "6"; "7"; "8"; "9"]%char.

(** The digit part of a decimal literal: at least one digit, and an
    underscore only between two digits.  [after_digit] tells whether the
    character before [s] was a digit. *)
Fixpoint digits_ok (after_digit : bool) (s : string) : bool :=
  match s with
  | EmptyString => after_digit
  | String c rest =>
      if is_digit c then digits_ok true rest
      else if Ascii.eqb c "_" then after_digit && digits_ok false rest
      else false
  end.

Fixpoint drop_underscores (s : string) : string :=
  match s with
  | EmptyString => EmptyString
  | String c rest =>
      if Ascii.eqb c "_" then drop_underscores rest
      else String c (drop_underscores rest)
  end.

(** [int(text)] in base ten: surrounding white space, one optional sign,
    digits with single underscores between them; [ValueError]
    otherwise. *)
Definition int_of_str (text : string) : outcome Z :=
  let body := strip text in
  let '(negative, digits) :=
    match body with
    | String c rest =>
        if Ascii.eqb c "-" then (true, rest)
        else if Ascii.eqb c "+" then (false, rest)
        else (false, body)
    | EmptyString => (false, body)
    end in
  if digits_ok false digits then
    match NilEmpty.uint_of_string (drop_underscores digits) with
    | Some d => Returns (if negative then - Z.of_uint d else Z.of_uint d)
    | None => Raises ValueError
    end
  else Raises ValueError.

(** [Orientation[name]]: lookup of a member by name, [KeyError] when
    there is none. *)
Definition Orientation_getitem (name : string) : outcome Orientation :=
  if String.eqb name "UNDEFINED" then Returns UNDEFINED
  else if String.eqb name "LANDSCAPE" then Returns LANDSCAPE
  else if String.eqb name "PORTRAIT" then Returns PORTRAIT
  else Raises KeyError.

(* ================================================================== *)
(** ** The record file *)

(** [Postcard.as_string] *)
Definition as_string (self : Postcard) : string :=
  (str_of_int (xxx self) ++ "," ++ str_of_int (zzz self) ++ ","
   ++ Orientation_name (orientation self))%string.

(** [Postcard.from_string]: the unpacking of [args.split(',')] needs
    exactly three fields. *)
Definition from_string (cfg : Layout) (args : string) : M Postcard :=
  match split "," args with
  | [xxx; zzz; orientation_str] =>
      x <- lift (int_of_str xxx) ;;
      z <- lift (int_of_str zzz) ;;
      o <- lift (Orientation_getitem orientation_str) ;;
      Postcard_init cfg (Some x) (Some z) (Some o)
  | _ => raise ValueError
  end.

(** [BUSY_FILE.read_text()] *)
Definition read_text : M string :=
  fun w =>
    match busy_file w with
    | Some text => Returns (universal_newlines text, w)
    | None => Raises FileNotFoundError
    end.

(** [BUSY_FILE.write_text(contents)] (line ends are left as they are,
    as on POSIX). *)
Definition write_text (contents : string) : M unit :=
  fun w =>
    Returns (tt, {| draws := draws w; cursor := cursor w;
                    busy_file := Some contents |}).

(** The [for line in contents] loop of [parse_busy]. *)
Fixpoint parse_lines (cfg : Layout) (contents : list string)
    (postcards : list Postcard) : M (list Postcard) :=
  match contents with
  | [] => ret postcards
  | line :: rest =>
      if startswith line "#" then parse_lines cfg rest postcards
      else
        postcard <- from_string cfg line ;;
        parse_lines cfg rest (postcards ++ [postcard])%list
  end.

(** [parse_busy] *)
Definition parse_busy (cfg : Layout) : M (list Postcard) :=
  text <- read_text ;;
  parse_lines cfg (splitlines text) [].

(** The text [write_busy] builds. *)
Definition busy_contents (postcards : list Postcard) : string :=
  ("# x,z,orientation" ++ newline
   ++ join newline (map as_string postcards) ++ newline)%string.

(** [write_busy] *)
Definition write_busy (postcards : list Postcard) : M unit :=
  write_text (busy_contents postcards).

(* ================================================================== *)
(** ** Acceptance test and driver *)

(** The [for postcard in postcards] loop of [test_new]. *)
Fixpoint clear_of (new_postcard : Postcard) (postcards : list Postcard)
  : bool :=
  match postcards with
  | [] => true
  | postcard :: rest =>
      if overlap new_postcard postcard then false
      else clear_of new_postcard rest
  end.

(** [test_new] *)
Definition test_new (cfg : Layout) (new_postcard : Postcard)
    (postcards : list Postcard) : bool :=
  if overflow new_postcard (THE_DOOR cfg) then false
  else clear_of new_postcard postcards.

(** [some_list[index]] with Python's negative indices. *)
Definition list_getitem {A} (l : list A) (index : Z) : outcome A :=
  let n := Z.of_nat (List.length l) in
  let i := if index <? 0 then index + n else index in
  if (0 <=? i) && (i <? n) then
    match nth_error l (Z.to_nat i) with
    | Some a => Returns a
    | None => Raises IndexError
    end
  else Raises IndexError.

(** [logging.ERROR], [WARNING], [INFO], [DEBUG] *)
Definition log_levels : list Z := [40; 30; 20; 10].

(** The parsed command line. *)
Record Namespace : Type := mkNamespace {
  verbose : option Z;
  dryrun : bool;
  portrait : bool;
  landscape : bool
}.

(** Lines 329-332 of [main]: the value [args.verbose] ends up with. *)
Definition effective_verbose (v : option Z) : Z :=
  match v with
  | None => 0
  | Some n =>
      if n >=? Z.of_nat (List.length log_levels)
      then Z.of_nat (List.length log_levels)
      else n
  end.

(** Line 334: [log_levels[args.verbose]]. *)
Definition chosen_level (v : option Z) : outcome Z :=
  list_getitem log_levels (effective_verbose v).

(** The [while not test_new(...)] loop of [main]; [fuel] bounds the
    number of fresh draws. *)
Fixpoint resample (cfg : Layout) (fuel : nat) (o : Orientation)
    (existing_postcards : list Postcard) (postcard : Postcard)
  : M Postcard :=
  if test_new cfg postcard existing_postcards then ret postcard
  else
    match fuel with
    | O => spin
    | S fuel' =>
        postcard' <- Postcard_init cfg None None (Some o) ;;
        resample cfg fuel' o existing_postcards postcard'
    end.

(** Lines 338-340 of [main]: first draw, then the loop. *)
Definition place (cfg : Layout) (fuel : nat) (o : Orientation)
    (existing_postcards : list Postcard) : M Postcard :=
  postcard <- Postcard_init cfg None None (Some o) ;;
  resample cfg fuel o existing_postcards postcard.

(** [main], up to the final [print]: returns the list it holds at the
    end and the postcard it placed. *)
Definition main (cfg : Layout) (fuel : nat) (args : Namespace)
  : M (list Postcard * Postcard) :=
  if negb (landscape args) && negb (portrait args) then raise ValueError
  else
    let o := if portrait args then PORTRAIT else LANDSCAPE in
    _ <- lift (chosen_level (verbose args)) ;;
    existing_postcards <- parse_busy cfg ;;
    postcard <- place cfg fuel o existing_postcards ;;
    let existing_postcards := (existing_postcards ++ [postcard])%list in
    _ <- (if negb (dryrun args) then write_busy existing_postcards
          else ret tt) ;;
    ret (existing_postcards, postcard).

(* ================================================================== *)
(** ** Vocabulary of the properties *)

(** Two rectangles whose spans meet at a single coordinate on some axis:
    the far side of one is the near side of the other. *)
Definition edge_adjacent (a b : Rectangle) : Prop :=
  xxx a + width a = xxx b \/ xxx b + width b = xxx a
  \/ zzz a + height a = zzz b \/ zzz b + height b = zzz a.

(** No two members at different positions overlap, in either order. *)
Definition pairwise_clear (postcards : list Postcard) : Prop :=
  forall (i j : nat) (p q : Postcard),
    i <> j ->
    nth_error postcards i = Some p ->
    nth_error postcards j = Some q ->
    overlap p q = false.

(** No member overflows the door. *)
Definition within_door (cfg : Layout) (postcards : list Postcard) : Prop :=
  Forall (fun p : Postcard => overflow p (THE_DOOR cfg) = false) postcards.

(** The invariant of the placed-rectangle set. *)
Definition placed_invariant (cfg : Layout) (postcards : list Postcard)
  : Prop :=
  pairwise_clear postcards /\ within_door cfg postcards.

(** What the scan of [test_new] establishes: every member is clear of
    the members placed before it, tested from the later one. *)
Definition later_clear (postcards : list Postcard) : Prop :=
  forall (i j : nat) (p q : Postcard),
    (i < j)%nat ->
    nth_error postcards i = Some p ->
    nth_error postcards j = Some q ->
    overlap q p = false.

(** The file [write_busy] leaves is read back by [parse_busy], and
    writing what was read leaves the same file. *)
Definition save_load_save_stable (cfg : Layout) (postcards : list Postcard)
    (w : World) : Prop :=
  exists (loaded : list Postcard) (w1 w2 : World),
    write_busy postcards w = Returns (tt, w1)
    /\ parse_busy cfg w1 = Returns (loaded, w1)
    /\ write_busy loaded w1 = Returns (tt, w2)
    /\ busy_file w2 = busy_file w1.

(** Every character of [s] passes [f]. *)
Fixpoint all_chars (f : ascii -> bool) (s : string) : bool :=
  match s with
  | EmptyString => true
  | String c rest => f c && all_chars f rest
  end.

(** The characters of a line of the record file: digits, the minus
    sign, the comma and capital letters. *)
Definition record_char (c : ascii) : bool :=
  is_digit c || Ascii.eqb c "-" || Ascii.eqb c ","
  || ((65 <=? Z.of_nat (nat_of_ascii c)) && (Z.of_nat (nat_of_ascii c) <=? 90)).

(** The same without the comma. *)
Definition field_char (c : ascii) : bool :=
  record_char c && negb (Ascii.eqb c ",").

(** Characters that do not end a line. *)
Definition within_line (c : ascii) : bool := negb (is_linebreak c).

(** Each line followed by a line feed. *)
Fixpoint unlines (lines : list string) : string :=
  match lines with
  | [] => EmptyString
  | line :: rest => (line ++ String LF (unlines rest))%string
  end.

(** The postcard [from_string] builds from the line of [p]: the origin
    and orientation of [p], the size the constructor gives that
    orientation. *)
Definition reloaded (cfg : Layout) (p : Postcard) : Postcard :=
  {| base := mkRectangle (xxx p) (zzz p)
               (fst (dimensions cfg (Some (orientation p))))
               (snd (dimensions cfg (Some (orientation p))));
     orientation := orientation p |}.

(* ------------------------------------------------------------------ *)
(** *** Concrete inputs *)

(** [Postcard(0, 0, Orientation.LANDSCAPE)] *)
Definition card_a : Postcard :=
  mkPostcard (mkRectangle 0 0 146 106) LANDSCAPE.

(** [Postcard(10, 10, Orientation.PORTRAIT)] *)
Definition card_b : Postcard :=
  mkPostcard (mkRectangle 10 10 106 146) PORTRAIT.

(** A generator that always hands out 0 and no file yet. *)
Definition blank_world : World :=
  {| draws := fun _ => 0; cursor := 0; busy_file := None |}.

(** The same generator, with [card_b] on record. *)
Definition world_with_b : World :=
  {| draws := fun _ => 0; cursor := 0;
     busy_file := Some (busy_contents [card_b]) |}.

(** A door narrower than a postcard. *)
Definition narrow_layout : Layout :=
  {| THE_DOOR := mkRectangle 0 0 100 2000; WIDTH := 146; HEIGHT := 106 |}.

(** [-l] and four times [-v]. *)
Definition args_vvvv : Namespace :=
  {| verbose := Some 4; dryrun := false; portrait := false;
     landscape := true |}.

(** [-l] alone. *)
Definition args_landscape : Namespace :=
  {| verbose := Some 0; dryrun := false; portrait := false;
     landscape := true |}.

(* ------------------------------------------------------------------ *)
(** *** Vocabulary for the polar coordinates and the empty record list *)

(** What is said of [get_polar]: the pair of the root and the angle
    when [x] is not 0, a division by zero when it is. *)
Definition polar_as_stated (r : Rectangle) : Prop :=
  (xxx r <> 0 ->
   get_polar r
   = Returns (sqrt (float_of_int (xxx r ^ 2 + zzz r ^ 2)),
              atan (int_over_int (zzz r) (xxx r))))
  /\ (xxx r = 0 -> get_polar r = Raises ZeroDivisionError).

(** A rectangle on the z axis, far up. *)
Definition far_up : Rectangle := mkRectangle 0 (10 ^ 200) 146 106.

(** A rectangle far to the right. *)
Definition far_right : Rectangle := mkRectangle (10 ^ 200) 1 146 106.

(** A file that holds the header line and nothing else. *)
Definition world_header_only : World :=
  {| draws := fun _ => 0; cursor := 0;
     busy_file := Some ("# x,z,orientation" ++ newline)%string |}.

(* ------------------------------------------------------------------ *)
(** *** Further vocabulary *)

(** [a] covers the whole x span of [b]. *)
Definition spans_x (a b : Rectangle) : Prop :=
  xxx a <= xxx b /\ xxx b + width b <= xxx a + width a.

(** [a] covers the whole z span of [b]. *)
Definition spans_z (a b : Rectangle) : Prop :=
  zzz a <= zzz b /\ zzz b + height b <= zzz a + height a.

(** The two rectangles share an area of positive size. *)
Definition intersects (a b : Rectangle) : Prop :=
  Z.max (xxx a) (xxx b) < Z.min (xxx a + width a) (xxx b + width b)
  /\ Z.max (zzz a) (zzz b) < Z.min (zzz a + height a) (zzz b + height b).

(** The size of [p] is the one the constructor gives its orientation. *)
Definition well_sized (cfg : Layout) (p : Postcard) : Prop :=
  (width p, height p) = dimensions cfg (Some (orientation p)).

(** Lines that [parse_busy] reads as a record. *)
Definition is_record_line (line : string) : bool :=
  negb (startswith line "#").

(** Characters other than the comma. *)
Definition no_comma (c : ascii) : bool := negb (Ascii.eqb c ",").

(** The number of commas in a line. *)
Fixpoint comma_count (s : string) : nat :=
  match s with
  | EmptyString => O
  | String c rest =>
      if Ascii.eqb c "," then S (comma_count rest) else comma_count rest
  end.

(** The first line of every file [write_busy] leaves. *)
Definition header_line : string := "# x,z,orientation".

(** The orientation [main] asks for. *)
Definition requested (args : Namespace) : Orientation :=
  if portrait args then PORTRAIT else LANDSCAPE.

(** [Postcard(0, 20, LANDSCAPE)] and [Postcard(20, 0, PORTRAIT)]: a
    cross. *)
Definition card_lying : Postcard :=
  mkPostcard (mkRectangle 0 20 146 106) LANDSCAPE.

Definition card_standing : Postcard :=
  mkPostcard (mkRectangle 20 0 106 146) PORTRAIT.

(** [Postcard(-5, -5, LANDSCAPE)], as a record of the file may say. *)
Definition card_outside : Postcard :=
  mkPostcard (mkRectangle (-5) (-5) 146 106) LANDSCAPE.

(** A door with room for one landscape card only. *)
Definition tight_layout : Layout :=
  {| THE_DOOR := mkRectangle 0 0 146 106; WIDTH := 146; HEIGHT := 106 |}.

(* ================================================================== *)
(** * Properties *)

(** ** Geometry *)

Ltac by_comparisons :=
  repeat match goal with
         | |- context [?a >? ?b] => rewrite (Z.gtb_ltb a b)
         end;
  repeat match goal with
         | |- context [?a <? ?b] => destruct (Z.ltb_spec a b)
         end;
  simpl; try reflexivity; try lia.

(** The case [overlap] does not see: [self] spans [other] on the x axis. *)
Lemma overlap_spanning_x (a b : Rectangle) :
  xxx a <= xxx b ->
  xxx b + width b <= xxx a + width a ->
  overlap a b = false.
Proof.
  intros Hlo Hhi. unfold overlap. by_comparisons.
Qed.

(** The same on the z axis. *)
Lemma overlap_spanning_z (a b : Rectangle) :
  zzz a <= zzz b ->
  zzz b + height b <= zzz a + height a ->
  overlap a b = false.
Proof.
  intros Hlo Hhi. unfold overlap. by_comparisons.
Qed.

(** No rectangle overlaps itself. *)
Lemma overlap_self (a : Rectangle) : overlap a a = false.
Proof.
  apply overlap_spanning_x; lia.
Qed.

(** Spans that are apart or merely touch on the x axis do not overlap. *)
Lemma overlap_apart_x (a b : Rectangle) :
  0 <= width a ->
  xxx a + width a <= xxx b \/ xxx b + width b <= xxx a ->
  overlap a b = false.
Proof.
  intros Hw [H | H]; unfold overlap; by_comparisons.
Qed.

Lemma overlap_apart_z (a b : Rectangle) :
  0 <= height a ->
  zzz a + height a <= zzz b \/ zzz b + height b <= zzz a ->
  overlap a b = false.
Proof.
  intros Hh [H | H]; unfold overlap; by_comparisons.
Qed.

(** C1, at [Postcard(0, 0, LANDSCAPE)] and [Postcard(10, 10, PORTRAIT)]:
    the landscape card spans the portrait card on the x axis, so
    [overlap] answers no from the landscape card and yes from the
    portrait card; the predicate is not symmetric. *)
Theorem overlap_differs_by_order :
  overlap card_a card_b = false /\ overlap card_b card_a = true.
Proof.
  split; reflexivity.
Qed.

(** C2, at [Postcard(0, 0, LANDSCAPE)]: a rectangle of positive width
    and height is reported as not overlapping itself. *)
Theorem overlap_self_is_false :
  0 < width card_a /\ 0 < height card_a /\ overlap card_a card_a = false.
Proof.
  split; [reflexivity | split; [reflexivity | apply overlap_self]].
Qed.

(** C5: rectangles of non-negative size that share only a boundary edge
    do not overlap, whichever of the two is asked. *)
Theorem overlap_edge_adjacent (a b : Rectangle) :
  0 <= width a -> 0 <= height a ->
  0 <= width b -> 0 <= height b ->
  edge_adjacent a b ->
  overlap a b = false /\ overlap b a = false.
Proof.
  intros Hwa Hha Hwb Hhb [H | [H | [H | H]]]; split;
    solve [ apply overlap_apart_x; lia | apply overlap_apart_z; lia ].
Qed.

Lemma overlap_edge_adjacent_witness :
  overlap (mkRectangle 0 0 10 10) (mkRectangle 10 0 10 10) = false
  /\ overlap (mkRectangle 10 0 10 10) (mkRectangle 0 0 10 10) = false.
Proof.
  apply (overlap_edge_adjacent (mkRectangle 0 0 10 10)
           (mkRectangle 10 0 10 10)); simpl; try lia.
  left. reflexivity.
Defined.

(* ================================================================== *)
(** ** The generator and the constructor *)

Lemma randint_returns (a b : Z) (w : World) :
  a <= b ->
  exists v,
    randint a b w = Returns (v, advance w) /\ a <= v <= b.
Proof.
  intros Hab. unfold randint, randrange, bind, _randbelow, ret.
  destruct (Z.ltb_spec 0 (b + 1 - a)) as [Hpos | Hneg]; [ | lia ].
  eexists. split; [ reflexivity | ].
  pose proof (Z.mod_pos_bound (draws w (cursor w)) (b + 1 - a) Hpos).
  lia.
Qed.

Lemma randint_raises (a b : Z) (w : World) :
  b < a -> randint a b w = Raises ValueError.
Proof.
  intros Hba. unfold randint, randrange.
  destruct (Z.ltb_spec 0 (b + 1 - a)) as [Hpos | Hneg]; [ lia | reflexivity ].
Qed.

(** Both coordinates given: no draw, the pair is kept. *)
Lemma Postcard_init_given (cfg : Layout) (x z : Z)
    (o : option Orientation) (w : World) :
  Postcard_init cfg (Some x) (Some z) o w =
  Returns
    ({| base := mkRectangle x z (fst (dimensions cfg o))
                  (snd (dimensions cfg o));
        orientation := match o with None => UNDEFINED | Some o' => o' end |},
     w).
Proof.
  unfold Postcard_init. destruct (dimensions cfg o) as [cw ch]. reflexivity.
Qed.

(** One coordinate given: [ValueError], whatever the other arguments. *)
Lemma Postcard_init_half (cfg : Layout) (x z : option Z)
    (o : option Orientation) (w : World) :
  is_None x <> is_None z ->
  Postcard_init cfg x z o w = Raises ValueError.
Proof.
  intros Hhalf. unfold Postcard_init.
  destruct (dimensions cfg o) as [cw ch].
  destruct x, z; simpl in *; try congruence; reflexivity.
Qed.

(** No coordinate given and a door that can hold the card: two raw
    values are consumed and the origin lies in the drawn ranges. *)
Lemma Postcard_init_drawn (cfg : Layout) (o : option Orientation)
    (w : World) :
  fst (dimensions cfg o) <= width (THE_DOOR cfg) ->
  snd (dimensions cfg o) <= height (THE_DOOR cfg) ->
  exists p : Postcard,
    Postcard_init cfg None None o w = Returns (p, advance (advance w))
    /\ 0 <= xxx p <= width (THE_DOOR cfg) - fst (dimensions cfg o)
    /\ 0 <= zzz p <= height (THE_DOOR cfg) - snd (dimensions cfg o)
    /\ width p = fst (dimensions cfg o)
    /\ height p = snd (dimensions cfg o)
    /\ orientation p = match o with None => UNDEFINED | Some o' => o' end.
Proof.
  unfold Postcard_init. destruct (dimensions cfg o) as [cw ch]. simpl.
  intros Hw Hh.
  destruct (randint_returns 0 (width (THE_DOOR cfg) - cw) w) as (x & Ex & Hx);
    [ lia | ].
  destruct (randint_returns 0 (height (THE_DOOR cfg) - ch) (advance w))
    as (z & Ez & Hz); [ lia | ].
  eexists. unfold bind at 1 2. rewrite Ex.
  unfold bind. rewrite Ez. unfold ret. simpl.
  split; [ reflexivity | ]. simpl. repeat split; lia.
Qed.

(** No coordinate given and a door too small on either axis:
    [ValueError]. *)
Lemma Postcard_init_no_room (cfg : Layout) (o : option Orientation)
    (w : World) :
  width (THE_DOOR cfg) < fst (dimensions cfg o)
  \/ height (THE_DOOR cfg) < snd (dimensions cfg o) ->
  Postcard_init cfg None None o w = Raises ValueError.
Proof.
  unfold Postcard_init. destruct (dimensions cfg o) as [cw ch]. simpl.
  intros Hsmall. unfold bind at 1 2.
  destruct (Z_lt_le_dec (width (THE_DOOR cfg)) cw) as [Hw | Hw].
  - rewrite randint_raises by lia. reflexivity.
  - destruct (randint_returns 0 (width (THE_DOOR cfg) - cw) w)
      as (x & Ex & _); [ lia | ].
    rewrite Ex. unfold bind. rewrite randint_raises by lia. reflexivity.
Qed.

(** With nothing placed, [test_new] is the overflow check alone. *)
Lemma test_new_nil (cfg : Layout) (p : Postcard) :
  test_new cfg p [] = negb (overflow p (THE_DOOR cfg)).
Proof.
  unfold test_new. destruct (overflow p (THE_DOOR cfg)); reflexivity.
Qed.

(** C4: on the 800 x 2000 door with nothing placed, the sampler asked
    for a landscape card returns, whatever the generator hands out and
    however few retries it is allowed, a 146 x 106 card with
    [0 <= x <= 654], [0 <= z <= 1894] that does not overflow the door. *)
Theorem place_landscape_on_empty_door (fuel : nat) (w : World) :
  exists (p : Postcard) (w' : World),
    place door_layout fuel LANDSCAPE [] w = Returns (p, w')
    /\ 0 <= xxx p <= 654
    /\ 0 <= zzz p <= 1894
    /\ width p = 146 /\ height p = 106
    /\ overflow p (THE_DOOR door_layout) = false.
Proof.
  destruct (Postcard_init_drawn door_layout (Some LANDSCAPE) w)
    as (p & Ep & Hx & Hz & Hw & Hh & _); simpl; try lia.
  simpl in Hx, Hz, Hw, Hh.
  assert (Hfit : overflow p (THE_DOOR door_layout) = false).
  { unfold overflow. simpl. rewrite Hw, Hh. by_comparisons. }
  exists p, (advance (advance w)).
  split; [ | repeat split; try lia; exact Hfit ].
  unfold place, bind. rewrite Ep.
  destruct fuel; simpl; rewrite test_new_nil, Hfit; reflexivity.
Qed.

(** C6: when the card asked for is wider or higher than the door, the
    constructor raises [ValueError] at its draw, and so does the sampler
    before its loop: no card is returned and no retry is spent, whatever
    is already placed. *)
Theorem place_no_room_raises (cfg : Layout) (o : Orientation)
    (fuel : nat) (existing_postcards : list Postcard) (w : World) :
  width (THE_DOOR cfg) < fst (dimensions cfg (Some o))
  \/ height (THE_DOOR cfg) < snd (dimensions cfg (Some o)) ->
  Postcard_init cfg None None (Some o) w = Raises ValueError
  /\ place cfg fuel o existing_postcards w = Raises ValueError.
Proof.
  intros Hsmall.
  pose proof (Postcard_init_no_room cfg (Some o) w Hsmall) as E.
  split; [ exact E | ].
  unfold place, bind. rewrite E. reflexivity.
Qed.

Lemma place_no_room_raises_witness :
  Postcard_init narrow_layout None None (Some LANDSCAPE) blank_world
    = Raises ValueError
  /\ place narrow_layout 3 LANDSCAPE [] blank_world = Raises ValueError.
Proof.
  apply (place_no_room_raises narrow_layout LANDSCAPE 3 [] blank_world).
  left. simpl. lia.
Defined.

(** C10: the constructor raises [ValueError] when exactly one coordinate
    is given; with both given it keeps them and consumes nothing from
    the generator; with none given, on the real door, it returns after
    consuming two raw values. *)
Theorem Postcard_init_coordinates (cfg : Layout) (x z : Z)
    (o : option Orientation) (w : World) :
  Postcard_init cfg (Some x) None o w = Raises ValueError
  /\ Postcard_init cfg None (Some z) o w = Raises ValueError
  /\ (exists p : Postcard,
         Postcard_init cfg (Some x) (Some z) o w = Returns (p, w)
         /\ xxx p = x /\ zzz p = z)
  /\ (exists p : Postcard,
         Postcard_init door_layout None None o w
           = Returns (p, advance (advance w))
         /\ xxx p = 0 + draws w (cursor w) mod (800 - width p + 1)
         /\ zzz p = 0 + draws w (S (cursor w)) mod (2000 - height p + 1)).
Proof.
  split; [ apply Postcard_init_half; discriminate | ].
  split; [ apply Postcard_init_half; discriminate | ].
  split.
  - eexists. rewrite Postcard_init_given. split; [ reflexivity | ].
    split; reflexivity.
  - unfold Postcard_init.
    destruct o as [[ | | ] | ]; simpl; eexists;
      (split; [ reflexivity | split; reflexivity ]).
Qed.

(* ================================================================== *)
(** ** The acceptance test and the placed set *)

Lemma clear_of_true (c : Postcard) (postcards : list Postcard) :
  clear_of c postcards = true <->
  (forall p, In p postcards -> overlap c p = false).
Proof.
  induction postcards as [ | q rest IH ]; simpl.
  - split; [ intros _ p [] | reflexivity ].
  - destruct (overlap c q) eqn:Eq.
    + split; [ discriminate | ].
      intros H. specialize (H q (or_introl eq_refl)). congruence.
    + rewrite IH. split.
      * intros H p [<- | Hin]; [ exact Eq | apply H, Hin ].
      * intros H p Hin. apply H. right. exact Hin.
Qed.

Lemma test_new_true (cfg : Layout) (c : Postcard)
    (postcards : list Postcard) :
  test_new cfg c postcards = true <->
  overflow c (THE_DOOR cfg) = false
  /\ (forall p, In p postcards -> overlap c p = false).
Proof.
  unfold test_new. destruct (overflow c (THE_DOOR cfg)).
  - split; [ discriminate | intros [H _]; discriminate ].
  - rewrite clear_of_true. tauto.
Qed.

(** What appending an accepted candidate does preserve: every member
    stays inside the door and is clear of the members before it, when
    the test is asked from the later member. *)
Lemma test_new_keeps_later_clear (cfg : Layout) (c : Postcard)
    (postcards : list Postcard) :
  later_clear postcards ->
  within_door cfg postcards ->
  test_new cfg c postcards = true ->
  later_clear (postcards ++ [c]) /\ within_door cfg (postcards ++ [c]).
Proof.
  intros Hclear Hin Hok. apply test_new_true in Hok as [Hfit Hfree].
  split.
  - intros i j p q Hij Hp Hq.
    destruct (Nat.lt_ge_cases j (List.length postcards)) as [Hj | Hj].
    + rewrite nth_error_app1 in Hp, Hq by lia.
      exact (Hclear i j p q Hij Hp Hq).
    + rewrite nth_error_app2 in Hq by exact Hj.
      destruct (j - List.length postcards)%nat as [ | k ] eqn:Ek; simpl in Hq.
      * injection Hq as <-.
        rewrite nth_error_app1 in Hp by lia.
        apply Hfree. exact (nth_error_In _ _ Hp).
      * destruct k; discriminate.
  - apply Forall_app. split; [ exact Hin | ].
    constructor; [ exact Hfit | constructor ].
Qed.

Lemma pairwise_clear_single (p : Postcard) : pairwise_clear [p].
Proof.
  intros i j a b Hij Ha Hb.
  destruct i as [ | i ]; [ | destruct i; discriminate ].
  destruct j as [ | j ]; [ congruence | destruct j; discriminate ].
Qed.

(** C3, at the set holding [Postcard(10, 10, PORTRAIT)] and the
    candidate [Postcard(0, 0, LANDSCAPE)]: the set satisfies the
    invariant and [test_new] accepts the candidate, yet the set with the
    candidate appended has two overlapping members.  A run of [main]
    reaches it: with that record on file and a generator handing out 0,
    [main -l] appends the candidate at its first draw. *)
Theorem test_new_admits_overlap :
  placed_invariant door_layout [card_b]
  /\ test_new door_layout card_a [card_b] = true
  /\ ~ placed_invariant door_layout ([card_b] ++ [card_a])
  /\ exists w' : World,
       main door_layout 0 args_landscape world_with_b
         = Returns (([card_b; card_a], card_a), w').
Proof.
  split.
  { split; [ apply pairwise_clear_single | ].
    constructor; [ reflexivity | constructor ]. }
  split; [ reflexivity | ].
  split.
  { intros [Hclear _].
    specialize (Hclear 0%nat 1%nat card_b card_a).
    assert (E : overlap card_b card_a = false)
      by (apply Hclear; [ discriminate | reflexivity | reflexivity ]).
    discriminate E. }
  eexists. vm_compute. reflexivity.
Qed.

(* ================================================================== *)
(** ** Verbosity *)

(** Counts below the number of levels select a level. *)
Lemma chosen_level_below (n : Z) :
  0 <= n < 4 -> exists level, chosen_level (Some n) = Returns level.
Proof.
  intros Hn.
  assert (n = 0 \/ n = 1 \/ n = 2 \/ n = 3) as [-> | [-> | [-> | ->]]]
    by lia; eexists; reflexivity.
Qed.

(** Counts from the number of levels on are set to that number, one
    past the last index. *)
Lemma chosen_level_from_four (n : Z) :
  4 <= n ->
  effective_verbose (Some n) = 4
  /\ chosen_level (Some n) = Raises IndexError.
Proof.
  intros Hn. unfold chosen_level, effective_verbose. simpl.
  destruct (Z.geb_spec n 4) as [_ | Hlt]; [ | lia ].
  split; reflexivity.
Qed.

(** C8, at a count of four ([-vvvv]): the count is set to 4, the number
    of levels, and indexing the four-element level table with it raises
    [IndexError]; [main] stops there, before it reads the record file. *)
Theorem main_vvvv_raises (cfg : Layout) (fuel : nat) (w : World) :
  effective_verbose (Some 4) = 4
  /\ chosen_level (Some 4) = Raises IndexError
  /\ main cfg fuel args_vvvv w = Raises IndexError.
Proof.
  repeat split.
Qed.

(* ================================================================== *)
(** ** Text *)

Lemma all_chars_app (f : ascii -> bool) (s t : string) :
  all_chars f (s ++ t) = all_chars f s && all_chars f t.
Proof.
  induction s as [ | c s IH ]; simpl; [ reflexivity | ].
  rewrite IH. apply andb_assoc.
Qed.

Lemma all_chars_weaken (f g : ascii -> bool) (s : string) :
  (forall c, f c = true -> g c = true) ->
  all_chars f s = true -> all_chars g s = true.
Proof.
  intros Hfg. induction s as [ | c s IH ]; simpl; [ reflexivity | ].
  intros H. apply andb_true_iff in H as [Hc Hs].
  rewrite (Hfg c Hc). apply IH, Hs.
Qed.

Lemma record_char_facts (c : ascii) :
  record_char c = true ->
  is_linebreak c = false /\ Ascii.eqb c CR = false.
Proof.
  destruct c as [[ | ] [ | ] [ | ] [ | ] [ | ] [ | ] [ | ] [ | ]];
    intros H; try discriminate H; split; reflexivity.
Qed.

Lemma is_digit_facts (c : ascii) :
  is_digit c = true ->
  field_char c = true
  /\ isspace c = false
  /\ Ascii.eqb c "-" = false
  /\ Ascii.eqb c "+" = false
  /\ Ascii.eqb c "_" = false
  /\ c <> "#"%char.
Proof.
  destruct c as [[ | ] [ | ] [ | ] [ | ] [ | ] [ | ] [ | ] [ | ]];
    intros H; try discriminate H; repeat split; discriminate.
Qed.

Lemma field_char_record (c : ascii) :
  field_char c = true -> record_char c = true.
Proof.
  unfold field_char. intros H. apply andb_true_iff in H. tauto.
Qed.

Lemma field_char_no_comma (c : ascii) :
  field_char c = true -> Ascii.eqb c "," = false.
Proof.
  unfold field_char. intros H. apply andb_true_iff in H as [_ H].
  apply negb_true_iff, H.
Qed.

(** [split] on a field without separator followed by the separator. *)
Lemma split_field (a b : string) :
  all_chars field_char a = true ->
  split "," (a ++ String "," b) = a :: split "," b.
Proof.
  induction a as [ | c a IH ]; simpl; [ reflexivity | ].
  intros H. apply andb_true_iff in H as [Hc Ha].
  rewrite (field_char_no_comma c Hc), (IH Ha). reflexivity.
Qed.

Lemma split_last (a : string) :
  all_chars field_char a = true -> split "," a = [a].
Proof.
  induction a as [ | c a IH ]; simpl; [ reflexivity | ].
  intros H. apply andb_true_iff in H as [Hc Ha].
  rewrite (field_char_no_comma c Hc), (IH Ha). reflexivity.
Qed.

Lemma within_line_facts (c : ascii) :
  within_line c = true ->
  is_linebreak c = false /\ Ascii.eqb c CR = false.
Proof.
  unfold within_line. intros H. apply negb_true_iff in H.
  split; [ exact H | ].
  destruct (Ascii.eqb c CR) eqn:E; [ | reflexivity ].
  apply Ascii.eqb_eq in E. subst c. discriminate H.
Qed.

Lemma record_char_within_line (c : ascii) :
  record_char c = true -> within_line c = true.
Proof.
  intros H. unfold within_line.
  destruct (record_char_facts c H) as [Hb _]. rewrite Hb. reflexivity.
Qed.

(** [splitlines] on a line without boundary followed by a line feed. *)
Lemma splitlines_line (line rest : string) :
  all_chars within_line line = true ->
  splitlines (line ++ String LF rest) = line :: splitlines rest.
Proof.
  induction line as [ | c line IH ]; simpl; [ reflexivity | ].
  intros H. apply andb_true_iff in H as [Hc Hline].
  destruct (within_line_facts c Hc) as [Hbreak Hcr].
  rewrite Hcr, Hbreak, (IH Hline). reflexivity.
Qed.

Lemma splitlines_unlines (lines : list string) :
  Forall (fun line => all_chars within_line line = true) lines ->
  splitlines (unlines lines) = lines.
Proof.
  induction 1 as [ | line lines Hline _ IH ]; simpl; [ reflexivity | ].
  rewrite (splitlines_line _ _ Hline), IH. reflexivity.
Qed.

(** Text without carriage return is read as it is. *)
Lemma universal_newlines_line (line rest : string) :
  all_chars within_line line = true ->
  universal_newlines (line ++ String LF rest) =
  (line ++ String LF (universal_newlines rest))%string.
Proof.
  induction line as [ | c line IH ]; simpl; [ reflexivity | ].
  intros H. apply andb_true_iff in H as [Hc Hline].
  destruct (within_line_facts c Hc) as [_ Hcr].
  rewrite Hcr, (IH Hline). reflexivity.
Qed.

Lemma universal_newlines_unlines (lines : list string) :
  Forall (fun line => all_chars within_line line = true) lines ->
  universal_newlines (unlines lines) = unlines lines.
Proof.
  induction 1 as [ | line lines Hline _ IH ]; simpl; [ reflexivity | ].
  rewrite (universal_newlines_line _ _ Hline), IH. reflexivity.
Qed.

Lemma join_unlines (lines : list string) :
  lines <> [] ->
  (join newline lines ++ newline)%string = unlines lines.
Proof.
  unfold join.
  induction lines as [ | line rest IH ]; [ congruence | intros _ ].
  destruct rest as [ | line' rest' ]; [ reflexivity | ].
  change (String.concat newline (line :: line' :: rest'))
    with (line ++ String LF (String.concat newline (line' :: rest')))%string.
  change (unlines (line :: line' :: rest'))
    with (line ++ String LF (unlines (line' :: rest')))%string.
  rewrite <- IH by discriminate.
  generalize (String.concat newline (line' :: rest')). intros t.
  induction line as [ | c line IHl ]; simpl; [ reflexivity | ].
  rewrite IHl. reflexivity.
Qed.

(* ------------------------------------------------------------------ *)
(** *** Integers as text *)

Lemma string_of_uint_digits (d : Decimal.uint) :
  all_chars is_digit (NilEmpty.string_of_uint d) = true.
Proof.
  induction d; simpl; try rewrite IHd; reflexivity.
Qed.

Lemma string_of_uint_nonempty (d : Decimal.uint) :
  d <> Decimal.Nil -> NilEmpty.string_of_uint d <> EmptyString.
Proof.
  destruct d; simpl; congruence.
Qed.

Lemma rstrip_plain (s : string) :
  all_chars (fun c => negb (isspace c)) s = true -> rstrip s = s.
Proof.
  induction s as [ | c s IH ]; simpl; [ reflexivity | ].
  intros H. apply andb_true_iff in H as [Hc Hs].
  rewrite (IH Hs). apply negb_true_iff in Hc. rewrite Hc.
  destruct s; reflexivity.
Qed.

Lemma strip_plain (s : string) :
  all_chars (fun c => negb (isspace c)) s = true -> strip s = s.
Proof.
  intros H. unfold strip.
  assert (E : lstrip s = s).
  { destruct s as [ | c s ]; simpl in *; [ reflexivity | ].
    apply andb_true_iff in H as [Hc _]. apply negb_true_iff in Hc.
    rewrite Hc. reflexivity. }
  rewrite E. apply rstrip_plain, H.
Qed.

Lemma digits_not_space (s : string) :
  all_chars is_digit s = true ->
  all_chars (fun c => negb (isspace c)) s = true.
Proof.
  apply all_chars_weaken. intros c Hc.
  destruct (is_digit_facts c Hc) as (_ & Hs & _). rewrite Hs. reflexivity.
Qed.

Lemma digits_ok_digits (s : string) :
  all_chars is_digit s = true -> digits_ok true s = true.
Proof.
  induction s as [ | c s IH ]; simpl; [ reflexivity | ].
  intros H. apply andb_true_iff in H as [Hc Hs]. rewrite Hc. apply IH, Hs.
Qed.

Lemma drop_underscores_digits (s : string) :
  all_chars is_digit s = true -> drop_underscores s = s.
Proof.
  induction s as [ | c s IH ]; simpl; [ reflexivity | ].
  intros H. apply andb_true_iff in H as [Hc Hs].
  destruct (is_digit_facts c Hc) as (_ & _ & _ & _ & Hu & _).
  rewrite Hu, (IH Hs). reflexivity.
Qed.

(** [int] reads a non-empty run of digits, with or without a minus sign
    in front, as the number it denotes. *)
Lemma int_of_str_digits (d : Decimal.uint) :
  d <> Decimal.Nil ->
  int_of_str (NilEmpty.string_of_uint d) = Returns (Z.of_uint d)
  /\ int_of_str (String "-" (NilEmpty.string_of_uint d))
     = Returns (- Z.of_uint d).
Proof.
  intros Hd.
  pose proof (string_of_uint_digits d) as Hdig.
  pose proof (string_of_uint_nonempty d Hd) as Hne.
  pose proof (NilEmpty.usu d) as Hparse.
  destruct (NilEmpty.string_of_uint d) as [ | c s ] eqn:Es; [ congruence | ].
  pose proof Hdig as Hdig'. simpl in Hdig'.
  apply andb_true_iff in Hdig' as [Hc Hs].
  destruct (is_digit_facts c Hc) as (_ & Hsp & Hminus & Hplus & _ & _).
  split; unfold int_of_str.
  - rewrite strip_plain by (apply digits_not_space, Hdig).
    rewrite Hminus, Hplus.
    change (digits_ok false (String c s))
      with (if is_digit c then digits_ok true s
            else if Ascii.eqb c "_" then false && digits_ok false s
                 else false).
    rewrite Hc, (digits_ok_digits s Hs).
    rewrite (drop_underscores_digits _ Hdig), Hparse. reflexivity.
  - rewrite strip_plain
      by (simpl; rewrite Hsp; simpl; apply digits_not_space, Hs).
    rewrite Ascii.eqb_refl.
    change (digits_ok false (String c s))
      with (if is_digit c then digits_ok true s
            else if Ascii.eqb c "_" then false && digits_ok false s
                 else false).
    rewrite Hc, (digits_ok_digits s Hs).
    rewrite (drop_underscores_digits _ Hdig), Hparse. reflexivity.
Qed.

(** [int(str(n)) == n] *)
Lemma int_of_str_of_int (n : Z) : int_of_str (str_of_int n) = Returns n.
Proof.
  unfold str_of_int.
  destruct n as [ | p | p ]; [ reflexivity | | ].
  - pose proof (Unsigned.to_uint_nonnil p) as Hnn.
    destruct (int_of_str_digits (Pos.to_uint p) Hnn) as [E _].
    simpl. unfold NilZero.string_of_uint.
    destruct (Pos.to_uint p) eqn:Ep; try congruence;
      rewrite E; f_equal;
      change (Z.of_uint ?d) with (Z.of_int (Decimal.Pos d));
      rewrite <- Ep; exact (DecimalZ.of_to (Z.pos p)).
  - pose proof (Unsigned.to_uint_nonnil p) as Hnn.
    destruct (int_of_str_digits (Pos.to_uint p) Hnn) as [_ E].
    simpl. unfold NilZero.string_of_uint.
    destruct (Pos.to_uint p) eqn:Ep; try congruence;
      rewrite E; f_equal;
      change (- Z.of_uint ?d) with (Z.of_int (Decimal.Neg d));
      rewrite <- Ep; exact (DecimalZ.of_to (Z.neg p)).
Qed.

(* ------------------------------------------------------------------ *)
(** *** Records as text *)

Lemma str_of_int_fields (n : Z) :
  all_chars field_char (str_of_int n) = true.
Proof.
  assert (Hd : forall d, all_chars field_char (NilZero.string_of_uint d) = true).
  { intros d. unfold NilZero.string_of_uint.
    pose proof (string_of_uint_digits d) as H.
    destruct d; try reflexivity;
      (apply (all_chars_weaken is_digit); [ | exact H ]);
      intros c Hc; apply (is_digit_facts c Hc). }
  unfold str_of_int. destruct (Z.to_int n) as [d | d]; simpl.
  - apply Hd.
  - apply Hd.
Qed.

Lemma str_of_int_head (n : Z) :
  exists c rest, str_of_int n = String c rest /\ c <> "#"%char.
Proof.
  assert (Hd : forall d, exists c rest,
               NilZero.string_of_uint d = String c rest /\ c <> "#"%char).
  { intros d. destruct d; simpl; do 2 eexists; (split; [ reflexivity | ]);
      discriminate. }
  unfold str_of_int. destruct (Z.to_int n) as [d | d]; simpl.
  - apply Hd.
  - do 2 eexists. split; [ reflexivity | discriminate ].
Qed.

Lemma Orientation_name_fields (o : Orientation) :
  all_chars field_char (Orientation_name o) = true.
Proof.
  destruct o; reflexivity.
Qed.

Lemma Orientation_getitem_name (o : Orientation) :
  Orientation_getitem (Orientation_name o) = Returns o.
Proof.
  destruct o; reflexivity.
Qed.

Lemma as_string_split (p : Postcard) :
  split "," (as_string p) =
  [str_of_int (xxx p); str_of_int (zzz p); Orientation_name (orientation p)].
Proof.
  unfold as_string. simpl String.append.
  rewrite split_field by apply str_of_int_fields.
  change (("," ++ ?t)%string) with (String "," t).
  rewrite split_field by apply str_of_int_fields.
  rewrite split_last by apply Orientation_name_fields.
  reflexivity.
Qed.

Lemma as_string_record_chars (p : Postcard) :
  all_chars record_char (as_string p) = true.
Proof.
  unfold as_string.
  pose proof (all_chars_weaken _ _ _ field_char_record
                (str_of_int_fields (xxx p))) as Hx.
  pose proof (all_chars_weaken _ _ _ field_char_record
                (str_of_int_fields (zzz p))) as Hz.
  pose proof (all_chars_weaken _ _ _ field_char_record
                (Orientation_name_fields (orientation p))) as Ho.
  rewrite !all_chars_app, Hx, Hz, Ho. reflexivity.
Qed.

Lemma as_string_not_comment (p : Postcard) :
  startswith (as_string p) "#" = false.
Proof.
  unfold startswith, as_string.
  destruct (str_of_int_head (xxx p)) as (c & rest & E & Hc).
  rewrite E. cbn [String.append String.prefix].
  destruct (ascii_dec "#" c) as [Heq | _]; [ congruence | reflexivity ].
Qed.

(** A line written by [as_string] is read back by [from_string],
    without touching the generator or the file. *)
Lemma from_string_as_string (cfg : Layout) (p : Postcard) (w : World) :
  from_string cfg (as_string p) w = Returns (reloaded cfg p, w).
Proof.
  unfold from_string. rewrite as_string_split.
  unfold bind, lift.
  rewrite !int_of_str_of_int, Orientation_getitem_name.
  rewrite Postcard_init_given. reflexivity.
Qed.


(** A postcard made by the constructor is read back as it was. *)
Lemma reloaded_constructed (cfg : Layout) (x z : Z) (o : Orientation)
    (p : Postcard) (w w' : World) :
  Postcard_init cfg (Some x) (Some z) (Some o) w = Returns (p, w') ->
  reloaded cfg p = p.
Proof.
  rewrite Postcard_init_given. intros [= <- _]. reflexivity.
Qed.

Lemma parse_lines_as_string (cfg : Layout) (postcards acc : list Postcard)
    (w : World) :
  parse_lines cfg (map as_string postcards) acc w =
  Returns ((acc ++ map (reloaded cfg) postcards)%list, w).
Proof.
  revert acc. induction postcards as [ | p rest IH ]; intros acc; simpl.
  - rewrite app_nil_r. reflexivity.
  - rewrite as_string_not_comment. unfold bind.
    rewrite from_string_as_string, IH, <- app_assoc. reflexivity.
Qed.

Lemma busy_contents_unlines (postcards : list Postcard) :
  postcards <> [] ->
  busy_contents postcards =
  unlines ("# x,z,orientation" :: map as_string postcards).
Proof.
  intros Hne. unfold busy_contents.
  change (unlines ("# x,z,orientation" :: map as_string postcards))
    with ("# x,z,orientation"
          ++ String LF (unlines (map as_string postcards)))%string.
  rewrite <- join_unlines by (destruct postcards; simpl; congruence).
  reflexivity.
Qed.

Lemma busy_lines_within_line (postcards : list Postcard) :
  Forall (fun line => all_chars within_line line = true)
    ("# x,z,orientation" :: map as_string postcards).
Proof.
  constructor; [ reflexivity | ].
  apply Forall_forall. intros line Hin.
  apply in_map_iff in Hin as (p & <- & _).
  apply (all_chars_weaken record_char);
    [ exact record_char_within_line | apply as_string_record_chars ].
Qed.

(** The file written for a non-empty list is read back as the list of
    [reloaded] postcards. *)
Lemma parse_busy_written (cfg : Layout) (postcards : list Postcard)
    (w : World) :
  postcards <> [] ->
  busy_file w = Some (busy_contents postcards) ->
  parse_busy cfg w = Returns (map (reloaded cfg) postcards, w).
Proof.
  intros Hne Hfile. unfold parse_busy, bind, read_text. rewrite Hfile.
  rewrite (busy_contents_unlines _ Hne).
  rewrite universal_newlines_unlines by apply busy_lines_within_line.
  rewrite splitlines_unlines by apply busy_lines_within_line.
  change (parse_lines cfg ("# x,z,orientation" :: map as_string postcards) [] w)
    with (parse_lines cfg (map as_string postcards) [] w).
  apply parse_lines_as_string.
Qed.




(** C7, at the empty list.  [parse_busy] returns the empty list for a
    file that holds the header alone, so the empty list is a list of
    records the program itself reads.  [write_busy] of that list leaves
    the header followed by an empty line, and [parse_busy] raises
    [ValueError] on that line: what was written is not read back, and
    writing, reading and writing again does not come to the same file. *)
Theorem write_busy_empty_not_read_back :
  parse_busy door_layout world_header_only = Returns ([], world_header_only)
  /\ (exists w1 : World,
        write_busy [] world_header_only = Returns (tt, w1)
        /\ busy_file w1
           = Some ("# x,z,orientation" ++ newline ++ newline)%string
        /\ parse_busy door_layout w1 = Raises ValueError)
  /\ ~ save_load_save_stable door_layout [] world_header_only.
Proof.
  split; [ reflexivity | ].
  split.
  - eexists. split; [ reflexivity | ]. split; reflexivity.
  - intros (loaded & w1 & w2 & Hwrite & Hparse & _).
    injection Hwrite as <-.
    vm_compute in Hparse. discriminate Hparse.
Qed.

(* ================================================================== *)
(** * Further properties of the code *)

(** ** Geometry *)

Ltac to_inequalities :=
  unfold overlap, overflow;
  repeat rewrite ?andb_true_iff, ?orb_true_iff, ?andb_false_iff,
    ?orb_false_iff, ?Z.gtb_ltb, ?Z.ltb_lt, ?Z.ltb_ge.

Lemma overlap_true_spec (a b : Rectangle) :
  0 < width a -> 0 < height a ->
  (overlap a b = true <->
   intersects a b /\ ~ spans_x a b /\ ~ spans_z a b).
Proof.
  intros Hw Hh. unfold intersects, spans_x, spans_z. to_inequalities. lia.
Qed.

(** X1: for [self] of positive size, [overlap] says yes exactly when
    the two rectangles share an area of positive size and [self] covers
    the whole span of [other] on neither axis.  So it never reports an
    overlap that is not there. *)
Theorem overlap_true_iff (a b : Rectangle) :
  0 < width a -> 0 < height a ->
  (overlap a b = true <->
   intersects a b /\ ~ spans_x a b /\ ~ spans_z a b).
Proof.
  exact (overlap_true_spec a b).
Qed.

Lemma overlap_true_iff_witness :
  overlap card_b card_a = true <->
  intersects card_b card_a /\ ~ spans_x card_b card_a
  /\ ~ spans_z card_b card_a.
Proof.
  apply (overlap_true_iff card_b card_a); simpl; lia.
Defined.

(** X2: when each of two rectangles covers the whole span of the other
    on some axis (two cards in one column, or a lying card crossed by a
    standing one), [overlap] says no in both orders. *)
Theorem overlap_blind_both_ways (a b : Rectangle) :
  spans_x a b \/ spans_z a b ->
  spans_x b a \/ spans_z b a ->
  overlap a b = false /\ overlap b a = false.
Proof.
  unfold spans_x, spans_z.
  intros [[H1 H2] | [H1 H2]] [[H3 H4] | [H3 H4]]; split;
    solve [ apply overlap_spanning_x; assumption
          | apply overlap_spanning_z; assumption ].
Qed.

Lemma overlap_blind_both_ways_witness :
  intersects card_lying card_standing
  /\ overlap card_lying card_standing = false
  /\ overlap card_standing card_lying = false.
Proof.
  split; [ unfold intersects; simpl; lia | ].
  apply (overlap_blind_both_ways card_lying card_standing).
  - left. unfold spans_x. simpl. lia.
  - right. unfold spans_z. simpl. lia.
Defined.

(** X3: not overflowing is transitive: a rectangle that does not
    overflow a region which does not overflow a third one does not
    overflow the third one. *)
Theorem overflow_false_trans (a b c : Rectangle) :
  overflow a b = false -> overflow b c = false -> overflow a c = false.
Proof.
  to_inequalities. lia.
Qed.

Lemma overflow_false_trans_witness :
  overflow card_a (mkRectangle 0 0 400 400) = false.
Proof.
  apply (overflow_false_trans card_a (mkRectangle 0 0 200 200)
           (mkRectangle 0 0 400 400)); reflexivity.
Defined.

(** X4: a rectangle of positive size that does not overflow a region
    and another one lying wholly beside that region never overlap, in
    either order: cards kept inside the door are clear of anything
    recorded outside it. *)
Theorem overlap_inside_outside (a b d : Rectangle) :
  0 <= width a -> 0 <= height a ->
  0 <= width b -> 0 <= height b ->
  overflow a d = false ->
  xxx b + width b <= xxx d \/ xxx d + width d <= xxx b
  \/ zzz b + height b <= zzz d \/ zzz d + height d <= zzz b ->
  overlap a b = false /\ overlap b a = false.
Proof.
  intros Hwa Hha Hwb Hhb Hin Hout.
  assert (Hin' : xxx d <= xxx a /\ xxx a + width a <= xxx d + width d
                 /\ zzz d <= zzz a /\ zzz a + height a <= zzz d + height d).
  { revert Hin. to_inequalities. lia. }
  destruct Hout as [H | [H | [H | H]]]; split;
    solve [ apply overlap_apart_x; lia | apply overlap_apart_z; lia ].
Qed.

Lemma overlap_inside_outside_witness :
  overlap card_a (mkRectangle 800 0 146 106) = false
  /\ overlap (mkRectangle 800 0 146 106) card_a = false.
Proof.
  apply (overlap_inside_outside card_a (mkRectangle 800 0 146 106)
           (THE_DOOR door_layout)); simpl; try lia.
  reflexivity.
Defined.

(* ================================================================== *)
(** ** The constructor *)

Lemma well_sized_reloaded (cfg : Layout) (p : Postcard) :
  well_sized cfg p <-> reloaded cfg p = p.
Proof.
  unfold well_sized, reloaded. destruct p as [[x z wd ht] o].
  cbn [base orientation xxx zzz width height].
  destruct (dimensions cfg (Some o)) as [cw ch]. cbn [fst snd].
  split; intros H.
  - assert (wd = cw /\ ht = ch) as [-> ->] by (split; congruence).
    reflexivity.
  - assert (wd = cw /\ ht = ch) as [-> ->] by (split; congruence).
    reflexivity.
Qed.

Lemma dimensions_default (cfg : Layout) (o : option Orientation) :
  dimensions cfg o =
  dimensions cfg (Some match o with None => UNDEFINED | Some o' => o' end).
Proof.
  destruct o as [[ | | ] | ]; reflexivity.
Qed.

Lemma Postcard_init_sized (cfg : Layout) (x z : option Z)
    (o : option Orientation) (w w' : World) (p : Postcard) :
  Postcard_init cfg x z o w = Returns (p, w') ->
  well_sized cfg p
  /\ orientation p = match o with None => UNDEFINED | Some o' => o' end.
Proof.
  unfold Postcard_init, well_sized.
  rewrite (dimensions_default cfg o).
  destruct (dimensions cfg _) as [cw ch] eqn:Ed.
  destruct x as [x0 | ], z as [z0 | ]; cbn [is_None negb orb];
    unfold bind, ret, raise; try discriminate.
  - intros [= <- _]. cbn [base orientation width height fst snd].
    split; [ symmetry; exact Ed | reflexivity ].
  - destruct (randint 0 (width (THE_DOOR cfg) - cw) w)
      as [[x1 w1] | e | ]; try discriminate.
    destruct (randint 0 (height (THE_DOOR cfg) - ch) w1)
      as [[z1 w2] | e | ]; try discriminate.
    intros [= <- _]. cbn [base orientation width height fst snd].
    split; [ symmetry; exact Ed | reflexivity ].
Qed.



(** X6: on a door that starts at the origin and is at least as large as
    the card, a postcard built without coordinates is returned after two
    draws and does not overflow the door, so [test_new] rejects it only
    for an overlap. *)
Theorem Postcard_init_drawn_fits (cfg : Layout) (o : option Orientation)
    (w : World) :
  xxx (THE_DOOR cfg) = 0 -> zzz (THE_DOOR cfg) = 0 ->
  fst (dimensions cfg o) <= width (THE_DOOR cfg) ->
  snd (dimensions cfg o) <= height (THE_DOOR cfg) ->
  exists p : Postcard,
    Postcard_init cfg None None o w = Returns (p, advance (advance w))
    /\ overflow p (THE_DOOR cfg) = false
    /\ forall postcards, test_new cfg p postcards = clear_of p postcards.
Proof.
  intros Hx0 Hz0 Hw Hh.
  destruct (Postcard_init_drawn cfg o w Hw Hh)
    as (p & Ep & Hx & Hz & Ewd & Eht & _).
  assert (Hfit : overflow p (THE_DOOR cfg) = false).
  { to_inequalities. lia. }
  exists p. split; [ exact Ep | ]. split; [ exact Hfit | ].
  intros postcards. unfold test_new. rewrite Hfit. reflexivity.
Qed.

Lemma Postcard_init_drawn_fits_witness :
  exists p : Postcard,
    Postcard_init door_layout None None (Some PORTRAIT) blank_world
      = Returns (p, advance (advance blank_world))
    /\ overflow p (THE_DOOR door_layout) = false
    /\ forall postcards,
         test_new door_layout p postcards = clear_of p postcards.
Proof.
  apply (Postcard_init_drawn_fits door_layout (Some PORTRAIT) blank_world);
    simpl; lia.
Defined.

(** X7: the draw is not kept inside a door that does not start at the
    origin: the range always starts at 0.  On a door moved to the right
    of 0 by more than nothing, a generator handing out 0 gives a card
    that overflows it. *)
Theorem Postcard_init_draws_from_zero (cfg : Layout)
    (o : option Orientation) (w : World) :
  fst (dimensions cfg o) <= width (THE_DOOR cfg) ->
  snd (dimensions cfg o) <= height (THE_DOOR cfg) ->
  draws w (cursor w) = 0 ->
  0 < xxx (THE_DOOR cfg) ->
  exists p : Postcard,
    Postcard_init cfg None None o w = Returns (p, advance (advance w))
    /\ xxx p = 0
    /\ overflow p (THE_DOOR cfg) = true.
Proof.
  intros Hw Hh Hdraw Hdoor.
  unfold Postcard_init. destruct (dimensions cfg o) as [cw ch]. simpl in *.
  unfold bind at 1 2. unfold randint at 1, randrange, bind, _randbelow, ret.
  destruct (Z.ltb_spec 0 (width (THE_DOOR cfg) - cw + 1 - 0)); [ | lia ].
  rewrite Hdraw.
  destruct (randint_returns 0 (height (THE_DOOR cfg) - ch) (advance w))
    as (z & Ez & _); [ lia | ].
  rewrite Ez. eexists. split; [ reflexivity | ]. simpl.
  split; [ reflexivity | ].
  unfold overflow. simpl. rewrite Zmod_0_l.
  destruct (Z.ltb_spec 0 (xxx (THE_DOOR cfg))); [ reflexivity | lia ].
Qed.

Lemma Postcard_init_draws_from_zero_witness :
  exists p : Postcard,
    Postcard_init
      {| THE_DOOR := mkRectangle 50 0 800 2000; WIDTH := 146; HEIGHT := 106 |}
      None None (Some LANDSCAPE) blank_world
      = Returns (p, advance (advance blank_world))
    /\ xxx p = 0
    /\ overflow p (mkRectangle 50 0 800 2000) = true.
Proof.
  apply (Postcard_init_draws_from_zero
           {| THE_DOOR := mkRectangle 50 0 800 2000;
              WIDTH := 146; HEIGHT := 106 |}
           (Some LANDSCAPE) blank_world); simpl; try lia; reflexivity.
Defined.

(* ================================================================== *)
(** ** The record file *)

Lemma from_string_returns (cfg : Layout) (line : string) (w w' : World)
    (p : Postcard) :
  from_string cfg line w = Returns (p, w') ->
  w' = w /\ well_sized cfg p.
Proof.
  unfold from_string.
  destruct (split "," line) as [ | a [ | b [ | c [ | d rest ] ] ] ];
    try discriminate.
  unfold bind, lift.
  destruct (int_of_str a) as [x | e | ]; try discriminate.
  destruct (int_of_str b) as [z | e | ]; try discriminate.
  destruct (Orientation_getitem c) as [o | e | ]; try discriminate.
  intros H. split.
  - rewrite Postcard_init_given in H. congruence.
  - exact (proj1 (Postcard_init_sized _ _ _ _ _ _ _ H)).
Qed.

Lemma parse_lines_returns (cfg : Layout) (lines : list string)
    (acc loaded : list Postcard) (w w' : World) :
  parse_lines cfg lines acc w = Returns (loaded, w') ->
  w' = w
  /\ exists added : list Postcard,
       loaded = (acc ++ added)%list
       /\ Forall (well_sized cfg) added
       /\ List.length added = List.length (filter is_record_line lines).
Proof.
  revert acc. induction lines as [ | line rest IH ]; intros acc; simpl.
  - unfold ret. intros [= <- <-]. split; [ reflexivity | ].
    exists []. rewrite app_nil_r. repeat split. constructor.
  - unfold is_record_line at 1.
    destruct (startswith line "#"); simpl.
    + apply IH.
    + unfold bind.
      destruct (from_string cfg line w) as [[p w1] | e | ] eqn:Ep;
        try discriminate.
      apply from_string_returns in Ep as [-> Hp].
      intros H. apply IH in H as (Hw & added & -> & Hall & Hlen).
      split; [ exact Hw | ].
      exists (p :: added). rewrite <- app_assoc. simpl.
      repeat split; [ constructor; assumption | congruence ].
Qed.

(** X8: the line [as_string] writes for a postcard made by the
    constructor is read back by [from_string] as that very postcard,
    without a draw and without touching the file. *)
Theorem from_string_as_string_constructed (cfg : Layout) (x z : option Z)
    (o : option Orientation) (w0 w1 w : World) (p : Postcard) :
  Postcard_init cfg x z o w0 = Returns (p, w1) ->
  from_string cfg (as_string p) w = Returns (p, w).
Proof.
  intros H. apply Postcard_init_sized in H as [Hsize _].
  rewrite from_string_as_string.
  apply well_sized_reloaded in Hsize. rewrite Hsize. reflexivity.
Qed.

Lemma from_string_as_string_constructed_witness :
  from_string door_layout (as_string card_a) world_with_b
  = Returns (card_a, world_with_b).
Proof.
  apply (from_string_as_string_constructed door_layout (Some 0) (Some 0)
           (Some LANDSCAPE) blank_world blank_world world_with_b card_a).
  reflexivity.
Defined.

(** X9: two postcards with the same line have the same origin and the
    same orientation: the line loses nothing but the size, which the
    orientation gives back. *)
Theorem as_string_injective (p q : Postcard) :
  as_string p = as_string q ->
  xxx p = xxx q /\ zzz p = zzz q /\ orientation p = orientation q.
Proof.
  intros E.
  pose proof (from_string_as_string door_layout p blank_world) as Hp.
  pose proof (from_string_as_string door_layout q blank_world) as Hq.
  rewrite E in Hp. rewrite Hp in Hq.
  injection Hq as Hx Hz _ _ Ho. repeat split; assumption.
Qed.

Lemma as_string_injective_witness :
  xxx card_a = xxx (mkPostcard (mkRectangle 0 0 1 1) LANDSCAPE)
  /\ zzz card_a = zzz (mkPostcard (mkRectangle 0 0 1 1) LANDSCAPE)
  /\ orientation card_a
     = orientation (mkPostcard (mkRectangle 0 0 1 1) LANDSCAPE).
Proof.
  apply (as_string_injective card_a
           (mkPostcard (mkRectangle 0 0 1 1) LANDSCAPE)).
  reflexivity.
Defined.

Lemma parse_busy_unchanged (cfg : Layout) (w w' : World)
    (loaded : list Postcard) :
  parse_busy cfg w = Returns (loaded, w') ->
  w' = w
  /\ Forall (well_sized cfg) loaded
  /\ exists text : string,
       busy_file w = Some text
       /\ List.length loaded
          = List.length
              (filter is_record_line (splitlines (universal_newlines text))).
Proof.
  unfold parse_busy, bind, read_text.
  destruct (busy_file w) as [text | ]; [ | discriminate ].
  intros H. apply parse_lines_returns in H as (Hw & added & -> & Hall & Hlen).
  split; [ exact Hw | ]. split; [ exact Hall | ].
  exists text. split; [ reflexivity | exact Hlen ].
Qed.

(** X10: when [parse_busy] returns, it has drawn nothing and left the
    file alone, it returns one postcard for each line that does not
    start with [#], and each of them has the size of its orientation
    whatever the file says. *)
Theorem parse_busy_returns (cfg : Layout) (w w' : World)
    (loaded : list Postcard) :
  parse_busy cfg w = Returns (loaded, w') ->
  w' = w
  /\ Forall (well_sized cfg) loaded
  /\ exists text : string,
       busy_file w = Some text
       /\ List.length loaded
          = List.length
              (filter is_record_line (splitlines (universal_newlines text))).
Proof.
  exact (parse_busy_unchanged cfg w w' loaded).
Qed.

Lemma parse_busy_returns_witness :
  world_with_b = world_with_b
  /\ Forall (well_sized door_layout) [card_b]
  /\ exists text : string,
       busy_file world_with_b = Some text
       /\ List.length [card_b]
          = List.length
              (filter is_record_line (splitlines (universal_newlines text))).
Proof.
  apply (parse_busy_returns door_layout world_with_b world_with_b [card_b]).
  vm_compute. reflexivity.
Defined.

(** X11: lines that start with [#] count for nothing wherever they
    stand: reading a list of lines and reading it with those lines
    taken out give the same result. *)
Theorem parse_lines_skips_comments (cfg : Layout) (lines : list string)
    (acc : list Postcard) (w : World) :
  parse_lines cfg lines acc w
  = parse_lines cfg (filter is_record_line lines) acc w.
Proof.
  revert acc w. induction lines as [ | line rest IH ]; intros acc w;
    [ reflexivity | ].
  simpl. unfold is_record_line at 1.
  destruct (startswith line "#") eqn:Ec; simpl.
  - apply IH.
  - rewrite Ec. unfold bind.
    destruct (from_string cfg line w) as [[p w1] | e | ];
      [ apply IH | reflexivity | reflexivity ].
Qed.

Lemma split_no_comma (s : string) :
  all_chars no_comma s = true -> split "," s = [s].
Proof.
  induction s as [ | c s IH ]; simpl; [ reflexivity | ].
  intros H. apply andb_true_iff in H as [Hc Hs].
  unfold no_comma in Hc. apply negb_true_iff in Hc.
  rewrite Hc, (IH Hs). reflexivity.
Qed.

Lemma split_length (s : string) :
  List.length (split "," s) = S (comma_count s).
Proof.
  induction s as [ | c s IH ]; simpl; [ reflexivity | ].
  destruct (Ascii.eqb c ","); simpl; [ rewrite IH; reflexivity | ].
  destruct (split "," s) as [ | field fields ]; simpl in *;
    [ discriminate | exact IH ].
Qed.

(** X12: a line that does not hold exactly two commas is no record:
    [from_string] raises [ValueError] on it.  When such a line is not a
    comment, the empty line among them, the whole reading fails with
    that error, whatever was read before it and whatever follows. *)
Theorem parse_lines_rejects_field_count (cfg : Layout) (line : string)
    (rest : list string) (acc : list Postcard) (w : World) :
  comma_count line <> 2%nat ->
  from_string cfg line w = Raises ValueError
  /\ (startswith line "#" = false ->
      parse_lines cfg (line :: rest) acc w = Raises ValueError).
Proof.
  intros Hcount.
  assert (E : from_string cfg line w = Raises ValueError).
  { unfold from_string. pose proof (split_length line) as Hlen.
    destruct (split "," line) as [ | a [ | b [ | c [ | d more ] ] ] ];
      try reflexivity.
    simpl in Hlen. congruence. }
  split; [ exact E | ].
  intros Hrec. simpl. rewrite Hrec. unfold bind. rewrite E. reflexivity.
Qed.

Lemma parse_lines_rejects_field_count_witness :
  from_string door_layout EmptyString blank_world = Raises ValueError
  /\ (startswith EmptyString "#" = false ->
      parse_lines door_layout [EmptyString; as_string card_a] [card_b]
        blank_world = Raises ValueError).
Proof.
  apply (parse_lines_rejects_field_count door_layout EmptyString
           [as_string card_a] [card_b] blank_world).
  simpl. lia.
Defined.

(** X13: the file written for a non-empty list has the header as its
    first line and then one line for each postcard, in order. *)
Theorem busy_contents_lines (postcards : list Postcard) :
  postcards <> [] ->
  splitlines (busy_contents postcards)
  = header_line :: map as_string postcards.
Proof.
  intros Hne. rewrite (busy_contents_unlines _ Hne).
  apply splitlines_unlines, busy_lines_within_line.
Qed.

Lemma busy_contents_lines_witness :
  splitlines (busy_contents [card_a; card_b])
  = header_line :: map as_string [card_a; card_b].
Proof.
  apply (busy_contents_lines [card_a; card_b]). discriminate.
Defined.

(** X14: reading the file written for a non-empty list of postcards
    that have the size of their orientation returns that list, in
    order, with nothing drawn and the file left as it is. *)
Theorem parse_busy_after_write_busy (cfg : Layout)
    (postcards : list Postcard) (w w1 : World) :
  postcards <> [] ->
  Forall (well_sized cfg) postcards ->
  write_busy postcards w = Returns (tt, w1) ->
  parse_busy cfg w1 = Returns (postcards, w1).
Proof.
  intros Hne Hsized Hwrite.
  injection Hwrite as <-.
  rewrite (parse_busy_written cfg postcards) by (assumption || reflexivity).
  f_equal. f_equal.
  induction Hsized as [ | p rest Hp _ IH ]; [ congruence | ].
  simpl. apply well_sized_reloaded in Hp. rewrite Hp. f_equal.
  destruct rest as [ | q rest' ]; [ reflexivity | ].
  apply IH. discriminate.
Qed.

Lemma parse_busy_after_write_busy_witness :
  parse_busy door_layout
    {| draws := draws blank_world; cursor := cursor blank_world;
       busy_file := Some (busy_contents [card_a; card_b]) |}
  = Returns ([card_a; card_b],
             {| draws := draws blank_world; cursor := cursor blank_world;
                busy_file := Some (busy_contents [card_a; card_b]) |}).
Proof.
  apply (parse_busy_after_write_busy door_layout [card_a; card_b]
           blank_world).
  - discriminate.
  - repeat constructor.
  - reflexivity.
Defined.

(* ================================================================== *)
(** ** The acceptance test and the retry loop *)

Lemma clear_of_app (c : Postcard) (l1 l2 : list Postcard) :
  clear_of c (l1 ++ l2)%list = clear_of c l1 && clear_of c l2.
Proof.
  induction l1 as [ | p l1 IH ]; simpl; [ reflexivity | ].
  destruct (overlap c p); [ reflexivity | exact IH ].
Qed.

(** X15: testing a candidate against two lists put together is testing
    it against each of them: it is accepted exactly when both tests
    accept it. *)
Theorem test_new_app (cfg : Layout) (c : Postcard)
    (l1 l2 : list Postcard) :
  test_new cfg c (l1 ++ l2)%list = test_new cfg c l1 && test_new cfg c l2.
Proof.
  unfold test_new. rewrite clear_of_app.
  destruct (overflow c (THE_DOOR cfg)); [ reflexivity | ].
  reflexivity.
Qed.

(** X16: the answer of [test_new] does not depend on the order in which
    the placed postcards are listed. *)
Theorem test_new_permutation (cfg : Layout) (c : Postcard)
    (l1 l2 : list Postcard) :
  Permutation l1 l2 ->
  test_new cfg c l1 = test_new cfg c l2.
Proof.
  intros Hperm. apply eq_true_iff_eq. rewrite !test_new_true.
  split; intros [Hfit Hfree]; (split; [ exact Hfit | ]); intros p Hin;
    apply Hfree.
  - apply (Permutation_in p (Permutation_sym Hperm) Hin).
  - apply (Permutation_in p Hperm Hin).
Qed.

Lemma test_new_permutation_witness :
  test_new door_layout card_a [card_b; card_lying]
  = test_new door_layout card_a [card_lying; card_b].
Proof.
  apply (test_new_permutation door_layout card_a [card_b; card_lying]
           [card_lying; card_b]).
  apply perm_swap.
Defined.

Lemma Postcard_init_keeps_file (cfg : Layout) (x z : option Z)
    (o : option Orientation) (w w' : World) (p : Postcard) :
  Postcard_init cfg x z o w = Returns (p, w') ->
  busy_file w' = busy_file w /\ draws w' = draws w.
Proof.
  unfold Postcard_init. destruct (dimensions cfg o) as [cw ch].
  destruct x as [x0 | ], z as [z0 | ]; cbn [is_None negb orb];
    unfold bind, ret, raise, randint, randrange, _randbelow;
    try discriminate.
  - intros [= _ <-]. split; reflexivity.
  - destruct (0 <? width (THE_DOOR cfg) - cw + 1 - 0); [ | discriminate ].
    destruct (0 <? height (THE_DOOR cfg) - ch + 1 - 0); [ | discriminate ].
    intros [= _ <-]. split; reflexivity.
Qed.

Lemma resample_returns (cfg : Layout) (fuel : nat) (o : Orientation)
    (existing_postcards : list Postcard) (p0 p : Postcard) (w w' : World) :
  resample cfg fuel o existing_postcards p0 w = Returns (p, w') ->
  test_new cfg p existing_postcards = true
  /\ (p = p0 \/ (orientation p = o /\ well_sized cfg p))
  /\ busy_file w' = busy_file w.
Proof.
  revert p0 w. induction fuel as [ | fuel IH ]; intros p0 w; simpl;
    destruct (test_new cfg p0 existing_postcards) eqn:Et;
    try (unfold ret; intros [= <- <-]; repeat split;
         [ exact Et | left; reflexivity ]);
    try discriminate.
  unfold bind.
  destruct (Postcard_init cfg None None (Some o) w) as [[p1 w1] | e | ] eqn:E1;
    try discriminate.
  intros H. apply IH in H as (Hok & Hshape & Hfile).
  pose proof (Postcard_init_sized _ _ _ _ _ _ _ E1) as [Hs Ho].
  split; [ exact Hok | ]. split.
  - right. destruct Hshape as [-> | Hshape]; [ split; assumption | exact Hshape ].
  - rewrite Hfile. exact (proj1 (Postcard_init_keeps_file _ _ _ _ _ _ _ E1)).
Qed.

Lemma place_accepted (cfg : Layout) (fuel : nat) (o : Orientation)
    (existing_postcards : list Postcard) (p : Postcard) (w w' : World) :
  place cfg fuel o existing_postcards w = Returns (p, w') ->
  test_new cfg p existing_postcards = true
  /\ orientation p = o
  /\ well_sized cfg p
  /\ busy_file w' = busy_file w.
Proof.
  intros H. unfold place, bind in H.
  destruct (Postcard_init cfg None None (Some o) w) as [[p1 w1] | e | ] eqn:E1;
    try discriminate.
  pose proof (Postcard_init_sized _ _ _ _ _ _ _ E1) as [Hs Ho].
  pose proof (proj1 (Postcard_init_keeps_file _ _ _ _ _ _ _ E1)) as Hfile1.
  apply resample_returns in H as (Hok & Hshape & Hfile).
  split; [ exact Hok | ].
  destruct Hshape as [-> | [Ho' Hs']];
    (split; [ assumption | split; [ assumption | congruence ] ]).
Qed.

(** X17: a postcard the retry loop returns is accepted by [test_new]
    against the placed postcards, has the orientation asked for and its
    size, and the record file is as it was. *)
Theorem place_returns (cfg : Layout) (fuel : nat) (o : Orientation)
    (existing_postcards : list Postcard) (p : Postcard) (w w' : World) :
  place cfg fuel o existing_postcards w = Returns (p, w') ->
  test_new cfg p existing_postcards = true
  /\ orientation p = o
  /\ well_sized cfg p
  /\ busy_file w' = busy_file w.
Proof.
  exact (place_accepted cfg fuel o existing_postcards p w w').
Qed.

Lemma place_returns_witness :
  test_new door_layout card_a [card_b] = true
  /\ orientation card_a = LANDSCAPE
  /\ well_sized door_layout card_a
  /\ busy_file (advance (advance world_with_b)) = busy_file world_with_b.
Proof.
  apply (place_returns door_layout 0 LANDSCAPE [card_b] card_a
           world_with_b (advance (advance world_with_b))).
  reflexivity.
Defined.

Lemma resample_spins (cfg : Layout) (o : Orientation)
    (existing_postcards : list Postcard) :
  fst (dimensions cfg (Some o)) <= width (THE_DOOR cfg) ->
  snd (dimensions cfg (Some o)) <= height (THE_DOOR cfg) ->
  (forall p : Postcard,
      orientation p = o -> well_sized cfg p ->
      0 <= xxx p <= width (THE_DOOR cfg) - width p ->
      0 <= zzz p <= height (THE_DOOR cfg) - height p ->
      test_new cfg p existing_postcards = false) ->
  forall (fuel : nat) (p0 : Postcard) (w : World),
    test_new cfg p0 existing_postcards = false ->
    resample cfg fuel o existing_postcards p0 w = Spins.
Proof.
  intros Hw Hh Hfull.
  induction fuel as [ | fuel IH ]; intros p0 w Hp0; simpl; rewrite Hp0;
    [ reflexivity | ].
  destruct (Postcard_init_drawn cfg (Some o) w Hw Hh)
    as (p & Ep & Hx & Hz & Ewd & Eht & Eo).
  unfold bind. rewrite Ep. apply IH. apply Hfull.
  - exact Eo.
  - unfold well_sized. rewrite Ewd, Eht, Eo.
    destruct (dimensions cfg (Some o)); reflexivity.
  - rewrite Ewd. exact Hx.
  - rewrite Eht. exact Hz.
Qed.

(** X18: when the door can hold the card but [test_new] rejects every
    position of the drawn range, the retry loop never returns and never
    raises: whatever the generator hands out and however many draws are
    allowed, it is still drawing. *)
Theorem place_spins (cfg : Layout) (o : Orientation)
    (existing_postcards : list Postcard) (fuel : nat) (w : World) :
  fst (dimensions cfg (Some o)) <= width (THE_DOOR cfg) ->
  snd (dimensions cfg (Some o)) <= height (THE_DOOR cfg) ->
  (forall p : Postcard,
      orientation p = o -> well_sized cfg p ->
      0 <= xxx p <= width (THE_DOOR cfg) - width p ->
      0 <= zzz p <= height (THE_DOOR cfg) - height p ->
      test_new cfg p existing_postcards = false) ->
  place cfg fuel o existing_postcards w = Spins.
Proof.
  intros Hw Hh Hfull.
  destruct (Postcard_init_drawn cfg (Some o) w Hw Hh)
    as (p & Ep & Hx & Hz & Ewd & Eht & Eo).
  unfold place, bind. rewrite Ep.
  apply (resample_spins cfg o existing_postcards Hw Hh Hfull).
  apply Hfull.
  - exact Eo.
  - unfold well_sized. rewrite Ewd, Eht, Eo.
    destruct (dimensions cfg (Some o)); reflexivity.
  - rewrite Ewd. exact Hx.
  - rewrite Eht. exact Hz.
Qed.

Lemma place_spins_witness :
  place tight_layout 7 LANDSCAPE [card_outside] blank_world = Spins.
Proof.
  apply (place_spins tight_layout LANDSCAPE [card_outside] 7 blank_world).
  - simpl. lia.
  - simpl. lia.
  - intros [[x z wd ht] o] Ho Hs Hx Hz.
    unfold well_sized in Hs. cbn [base orientation xxx zzz width height] in *.
    subst o.
    change (dimensions tight_layout (Some LANDSCAPE)) with (146, 106) in Hs.
    change (width (THE_DOOR tight_layout)) with 146 in Hx.
    change (height (THE_DOOR tight_layout)) with 106 in Hz.
    injection Hs as -> ->.
    assert (x = 0) as -> by lia. assert (z = 0) as -> by lia.
    reflexivity.
Defined.

(* ================================================================== *)
(** ** The driver *)

(** X19: a count of [-v] below four selects a level: none is [ERROR],
    one is [WARNING], two is [INFO], three is [DEBUG]; each step lowers
    the threshold by ten. *)
Theorem chosen_level_table (n : Z) :
  0 <= n <= 3 -> chosen_level (Some n) = Returns (40 - 10 * n).
Proof.
  intros Hn.
  assert (n = 0 \/ n = 1 \/ n = 2 \/ n = 3) as [-> | [-> | [-> | ->]]]
    by lia; reflexivity.
Qed.

Lemma chosen_level_table_witness :
  chosen_level (Some 2) = Returns (40 - 10 * 2).
Proof.
  apply (chosen_level_table 2). lia.
Defined.

(** X20: with an orientation chosen and a count of [-v] that selects a
    level, [main] stops with [FileNotFoundError] when the record file
    does not exist: the first run needs a file to be there. *)
Theorem main_needs_file (cfg : Layout) (fuel : nat) (args : Namespace)
    (w : World) :
  landscape args = true \/ portrait args = true ->
  (exists level, chosen_level (verbose args) = Returns level) ->
  busy_file w = None ->
  main cfg fuel args w = Raises FileNotFoundError.
Proof.
  intros Hflag [level Elevel] Hfile. unfold main.
  assert (E : negb (landscape args) && negb (portrait args) = false)
    by (destruct Hflag as [-> | ->]; [ reflexivity | apply andb_false_r ]).
  rewrite E. unfold bind at 1. unfold lift. rewrite Elevel.
  unfold bind at 1. unfold parse_busy, bind, read_text. rewrite Hfile.
  reflexivity.
Qed.

Lemma main_needs_file_witness :
  main door_layout 5 args_landscape blank_world = Raises FileNotFoundError.
Proof.
  apply (main_needs_file door_layout 5 args_landscape blank_world).
  - left. reflexivity.
  - exists 40. reflexivity.
  - reflexivity.
Defined.

Lemma main_result (cfg : Layout) (fuel : nat) (args : Namespace)
    (w w' : World) (held : list Postcard) (p : Postcard) :
  main cfg fuel args w = Returns ((held, p), w') ->
  exists loaded : list Postcard,
    parse_busy cfg w = Returns (loaded, w)
    /\ held = (loaded ++ [p])%list
    /\ test_new cfg p loaded = true
    /\ orientation p = requested args
    /\ well_sized cfg p
    /\ busy_file w'
       = if dryrun args then busy_file w else Some (busy_contents held).
Proof.
  unfold main.
  destruct (negb (landscape args) && negb (portrait args));
    [ discriminate | ].
  unfold bind at 1. unfold lift.
  destruct (chosen_level (verbose args)) as [level | e | ]; try discriminate.
  unfold bind at 1.
  destruct (parse_busy cfg w) as [[loaded w1] | e | ] eqn:Eparse;
    try discriminate.
  destruct (parse_busy_unchanged _ _ _ _ Eparse) as (-> & _ & _).
  unfold bind at 1.
  destruct (place cfg fuel _ loaded w) as [[q w2] | e | ] eqn:Eplace;
    try discriminate.
  destruct (place_accepted _ _ _ _ _ _ _ Eplace) as (Hok & Ho & Hs & Hfile).
  fold (requested args) in Ho.
  unfold bind, ret.
  destruct (dryrun args); cbn [negb].
  - intros [= <- <- <-]. exists loaded.
    repeat split; assumption.
  - unfold write_busy, write_text. intros [= <- <- <-]. exists loaded.
    repeat split; assumption.
Qed.

(** X21: when [main] returns, the list it holds is the list it read from
    the file followed by the new postcard; that postcard was accepted by
    [test_new] against the list read, has the orientation asked for
    (standing when both are asked) and its size; and the file is as it
    was on a dry run, and otherwise the text of the whole list. *)
Theorem main_returns (cfg : Layout) (fuel : nat) (args : Namespace)
    (w w' : World) (held : list Postcard) (p : Postcard) :
  main cfg fuel args w = Returns ((held, p), w') ->
  exists loaded : list Postcard,
    parse_busy cfg w = Returns (loaded, w)
    /\ held = (loaded ++ [p])%list
    /\ test_new cfg p loaded = true
    /\ orientation p = requested args
    /\ well_sized cfg p
    /\ busy_file w'
       = if dryrun args then busy_file w else Some (busy_contents held).
Proof.
  exact (main_result cfg fuel args w w' held p).
Qed.

Lemma main_returns_witness :
  exists loaded : list Postcard,
    parse_busy door_layout world_with_b = Returns (loaded, world_with_b)
    /\ [card_b; card_a] = (loaded ++ [card_a])%list
    /\ test_new door_layout card_a loaded = true
    /\ orientation card_a = requested args_landscape
    /\ well_sized door_layout card_a
    /\ busy_file
         {| draws := fun _ => 0; cursor := 2;
            busy_file := Some (busy_contents [card_b; card_a]) |}
       = if dryrun args_landscape then busy_file world_with_b
         else Some (busy_contents [card_b; card_a]).
Proof.
  apply (main_returns door_layout 0 args_landscape world_with_b
           {| draws := fun _ => 0; cursor := 2;
              busy_file := Some (busy_contents [card_b; card_a]) |}
           [card_b; card_a] card_a).
  vm_compute. reflexivity.
Defined.

Lemma map_reloaded_well_sized (cfg : Layout) (postcards : list Postcard) :
  Forall (well_sized cfg) postcards ->
  map (reloaded cfg) postcards = postcards.
Proof.
  induction 1 as [ | p rest Hp _ IH ]; simpl; [ reflexivity | ].
  apply well_sized_reloaded in Hp. rewrite Hp, IH. reflexivity.
Qed.

(** X22: after a run of [main] that returned and was not a dry run,
    reading the file gives exactly the list [main] held at its end: what
    was on record before, in order, and the new postcard last. *)
Theorem parse_busy_after_main (cfg : Layout) (fuel : nat)
    (args : Namespace) (w w' : World) (held : list Postcard)
    (p : Postcard) :
  main cfg fuel args w = Returns ((held, p), w') ->
  dryrun args = false ->
  parse_busy cfg w' = Returns (held, w').
Proof.
  intros Hmain Hwet.
  destruct (main_result _ _ _ _ _ _ _ Hmain)
    as (loaded & Eparse & -> & _ & _ & Hs & Hfile).
  rewrite Hwet in Hfile.
  destruct (parse_busy_unchanged _ _ _ _ Eparse) as (_ & Hloaded & _).
  rewrite (parse_busy_written cfg (loaded ++ [p])%list w');
    [ | destruct loaded; discriminate | exact Hfile ].
  rewrite map_reloaded_well_sized; [ reflexivity | ].
  apply Forall_app. split; [ exact Hloaded | ].
  constructor; [ exact Hs | constructor ].
Qed.

Lemma parse_busy_after_main_witness :
  parse_busy door_layout
    {| draws := fun _ => 0; cursor := 2;
       busy_file := Some (busy_contents [card_b; card_a]) |}
  = Returns ([card_b; card_a],
             {| draws := fun _ => 0; cursor := 2;
                busy_file := Some (busy_contents [card_b; card_a]) |}).
Proof.
  apply (parse_busy_after_main door_layout 0 args_landscape world_with_b
           {| draws := fun _ => 0; cursor := 2;
              busy_file := Some (busy_contents [card_b; card_a]) |}
           [card_b; card_a] card_a).
  - vm_compute. reflexivity.
  - reflexivity.
Defined.

(* ================================================================== *)
(** ** Faulty records and rejected candidates *)

Lemma split_comma_after (a b : string) :
  all_chars no_comma a = true ->
  split "," (a ++ String "," b) = a :: split "," b.
Proof.
  induction a as [ | c a IH ]; simpl; [ reflexivity | ].
  intros H. apply andb_true_iff in H as [Hc Ha].
  unfold no_comma in Hc. apply negb_true_iff in Hc.
  rewrite Hc, (IH Ha). reflexivity.
Qed.

Lemma split_three_fields (a b c : string) :
  all_chars no_comma a = true ->
  all_chars no_comma b = true ->
  all_chars no_comma c = true ->
  split "," (a ++ "," ++ b ++ "," ++ c) = [a; b; c].
Proof.
  intros Ha Hb Hc.
  change (a ++ "," ++ b ++ "," ++ c)%string
    with (a ++ String "," (b ++ String "," c))%string.
  rewrite (split_comma_after _ _ Ha), (split_comma_after _ _ Hb),
    (split_no_comma _ Hc).
  reflexivity.
Qed.

(** X23: a line of three fields whose coordinates read as integers,
    each written in at most 4300 characters (the number of digits the
    interpreter converts by default), but whose third field is none of
    the three orientation names, in capital letters, makes [from_string]
    raise [KeyError]. *)
Theorem from_string_unknown_orientation (cfg : Layout)
    (sx sz name : string) (x z : Z) (w : World) :
  all_chars no_comma sx = true ->
  all_chars no_comma sz = true ->
  all_chars no_comma name = true ->
  (String.length sx <= 4300)%nat ->
  (String.length sz <= 4300)%nat ->
  int_of_str sx = Returns x ->
  int_of_str sz = Returns z ->
  (forall o, name <> Orientation_name o) ->
  from_string cfg (sx ++ "," ++ sz ++ "," ++ name) w = Raises KeyError.
Proof.
  intros Hsx Hsz Hname _ _ Ex Ez Hunknown.
  unfold from_string. rewrite (split_three_fields _ _ _ Hsx Hsz Hname).
  unfold bind, lift. rewrite Ex, Ez.
  unfold Orientation_getitem.
  destruct (String.eqb_spec name "UNDEFINED") as [E | _];
    [ exfalso; exact (Hunknown UNDEFINED E) | ].
  destruct (String.eqb_spec name "LANDSCAPE") as [E | _];
    [ exfalso; exact (Hunknown LANDSCAPE E) | ].
  destruct (String.eqb_spec name "PORTRAIT") as [E | _];
    [ exfalso; exact (Hunknown PORTRAIT E) | ].
  reflexivity.
Qed.

Lemma from_string_unknown_orientation_witness :
  from_string door_layout ("1" ++ "," ++ "2" ++ "," ++ "landscape")
    blank_world = Raises KeyError.
Proof.
  apply (from_string_unknown_orientation door_layout "1" "2" "landscape"
           1 2 blank_world); try reflexivity; try (simpl; lia).
  intros [ | | ]; discriminate.
Defined.

(** X24: a line of three fields with a coordinate that is not a decimal
    literal (white space, an optional sign, digits with single
    underscores between them, white space) makes [from_string] raise
    [ValueError], whatever the third field is: the coordinates are read
    before the orientation is looked up. *)
Theorem from_string_bad_coordinate (cfg : Layout)
    (sx sz name : string) (w : World) :
  all_chars no_comma sx = true ->
  all_chars no_comma sz = true ->
  all_chars no_comma name = true ->
  int_of_str sx = Raises ValueError \/ int_of_str sz = Raises ValueError ->
  from_string cfg (sx ++ "," ++ sz ++ "," ++ name) w = Raises ValueError.
Proof.
  intros Hsx Hsz Hname Hbad.
  unfold from_string. rewrite (split_three_fields _ _ _ Hsx Hsz Hname).
  unfold bind, lift.
  assert (Hx : (exists x, int_of_str sx = Returns x)
               \/ int_of_str sx = Raises ValueError).
  { unfold int_of_str.
    destruct (match strip sx with
              | EmptyString => _
              | String c rest => _
              end) as [negative digits].
    destruct (digits_ok false digits); [ | right; reflexivity ].
    destruct (NilEmpty.uint_of_string (drop_underscores digits));
      [ left; eexists; reflexivity | right; reflexivity ]. }
  destruct Hx as [[x Ex] | Ex]; rewrite Ex; [ | reflexivity ].
  destruct Hbad as [E | E]; [ congruence | ].
  rewrite E. reflexivity.
Qed.

Lemma from_string_bad_coordinate_witness :
  from_string door_layout ("1" ++ "," ++ "two" ++ "," ++ "nowhere")
    blank_world = Raises ValueError.
Proof.
  apply (from_string_bad_coordinate door_layout "1" "two" "nowhere"
           blank_world); try reflexivity.
  right. reflexivity.
Defined.

Lemma clear_of_false (c : Postcard) (postcards : list Postcard) :
  clear_of c postcards = false ->
  exists p, In p postcards /\ overlap c p = true.
Proof.
  induction postcards as [ | q rest IH ]; simpl; [ discriminate | ].
  destruct (overlap c q) eqn:Eq.
  - intros _. exists q. split; [ left; reflexivity | exact Eq ].
  - intros H. destruct (IH H) as (p & Hin & Hp).
    exists p. split; [ right; exact Hin | exact Hp ].
Qed.

(** X25: [test_new] turns down a candidate of positive size that does
    not overflow the door only when a placed postcard shares an area of
    positive size with it: no position is refused without cause. *)
Theorem test_new_rejects_with_cause (cfg : Layout) (c : Postcard)
    (postcards : list Postcard) :
  0 < width c -> 0 < height c ->
  overflow c (THE_DOOR cfg) = false ->
  test_new cfg c postcards = false ->
  exists p : Postcard, In p postcards /\ intersects c p.
Proof.
  intros Hw Hh Hfit Hno. unfold test_new in Hno. rewrite Hfit in Hno.
  destruct (clear_of_false c postcards Hno) as (p & Hin & Hp).
  exists p. split; [ exact Hin | ].
  apply (overlap_true_spec c p Hw Hh) in Hp. tauto.
Qed.

Lemma test_new_rejects_with_cause_witness :
  exists p : Postcard, In p [card_a] /\ intersects card_b p.
Proof.
  apply (test_new_rejects_with_cause door_layout card_b [card_a]);
    simpl; try lia; reflexivity.
Defined.

(* ================================================================== *)
(** ** Polar coordinates *)

Lemma float_overflow_pos : 0 < float_overflow.
Proof. reflexivity. Qed.

(** X27: when the sum of the squares [x^2 + z^2] reaches
    [2^1024 - 2^970] and so does not convert to a float, the root raises
    [OverflowError] before the quotient is formed, whatever [x] is: also
    when [x] is 0. *)
Theorem get_polar_overflow (r : Rectangle) :
  float_overflow <= xxx r ^ 2 + zzz r ^ 2 ->
  get_polar r = Raises OverflowError.
Proof.
  intros Hbig. unfold get_polar, math_sqrt, as_float.
  rewrite Z.abs_eq by nia.
  destruct (Z.leb_spec float_overflow (xxx r ^ 2 + zzz r ^ 2));
    [ reflexivity | lia ].
Qed.

Lemma get_polar_overflow_witness :
  get_polar (mkRectangle (2 ^ 512) 0 146 106) = Raises OverflowError.
Proof.
  apply (get_polar_overflow (mkRectangle (2 ^ 512) 0 146 106)).
  vm_compute. discriminate.
Defined.

Lemma math_sqrt_sum_of_squares (x z : Z) :
  x ^ 2 + z ^ 2 < float_overflow ->
  math_sqrt (x ^ 2 + z ^ 2) = Returns (sqrt (float_of_int (x ^ 2 + z ^ 2))).
Proof.
  intros Hsmall. unfold math_sqrt, as_float.
  rewrite Z.abs_eq by nia.
  destruct (Z.leb_spec float_overflow (x ^ 2 + z ^ 2)); [ lia | ].
  destruct (Z.ltb_spec (x ^ 2 + z ^ 2) 0); [ nia | reflexivity ].
Qed.

Lemma truediv_small (a b : Z) :
  b <> 0 -> b ^ 2 + a ^ 2 < float_overflow ->
  truediv a b = Returns (int_over_int a b).
Proof.
  intros Hb Hsmall. unfold truediv.
  destruct (Z.eqb_spec b 0); [ contradiction | ].
  destruct (Z.leb_spec (float_overflow * Z.abs b) (Z.abs a)); [ | reflexivity ].
  exfalso.
  assert (Ha : Z.abs a <= a ^ 2) by nia.
  assert (Hb1 : 1 <= Z.abs b) by lia.
  pose proof float_overflow_pos.
  assert (float_overflow <= float_overflow * Z.abs b) by nia.
  nia.
Qed.

(** C9 (amended): for every rectangle whose sum of squares
    [x^2 + z^2] is below [2^1024 - 2^970], so that it converts to a
    float, [get_polar] returns the pair of [sqrt(x^2 + z^2)] and
    [atan(z / x)] when [x] is not 0 and raises [ZeroDivisionError] when
    [x] is 0. *)
Theorem get_polar_in_range (r : Rectangle) :
  xxx r ^ 2 + zzz r ^ 2 < float_overflow ->
  polar_as_stated r.
Proof.
  intros Hsmall. unfold polar_as_stated, get_polar.
  rewrite (math_sqrt_sum_of_squares _ _ Hsmall).
  split.
  - intros Hx. rewrite (truediv_small _ _ Hx Hsmall). reflexivity.
  - intros Hx. rewrite Hx. reflexivity.
Qed.

Lemma get_polar_in_range_witness :
  polar_as_stated card_a /\ polar_as_stated card_b.
Proof.
  split.
  - apply (get_polar_in_range card_a). reflexivity.
  - apply (get_polar_in_range card_b). reflexivity.
Defined.

(** C9 fails at the rectangle with origin [(0, 10^200)]: the root is
    taken first, its argument [10^400] does not convert to a float, and
    [get_polar] raises [OverflowError], not [ZeroDivisionError]. *)
Lemma get_polar_far_up_overflows :
  get_polar far_up = Raises OverflowError /\ ~ polar_as_stated far_up.
Proof.
  assert (E : get_polar far_up = Raises OverflowError)
    by (vm_compute; reflexivity).
  split; [ exact E | ].
  intros [_ H]. specialize (H eq_refl). rewrite E in H. discriminate H.
Qed.

(** The same away from the z axis: at the origin [(10^200, 1)] no pair
    is returned either. *)
Lemma get_polar_far_right_overflows :
  xxx far_right <> 0 /\ get_polar far_right = Raises OverflowError.
Proof.
  split; [ discriminate | vm_compute; reflexivity ].
Qed.
